(** * renewable: a single-slot cache refreshed by time-based expiration

    A shallow embedding of the Go package [renewable] (and its sub-package
    [periods]) together with the properties of its two strategies,
    [OnDemand] and [SoftHard].

    Layout of the development:
    - the parts of Go's [time], [sync] and [sync/atomic] packages the code
      relies on, as plain data ([time], [sync]);
    - package [periods] and the [result] type, as pure functions;
    - the constructors, returning Go's [(instance, error)] pair;
    - one transition system per strategy ([OD] and [SH]).  A goroutine is a
      program counter named after the source line it is about to execute,
      together with the locals that are live there; [tstep] runs one
      statement of one goroutine against the shared memory, [step] picks a
      goroutine of the pool (or lets the clock advance, or lets a caller
      enter [Get]);
    - the theorems. *)

From stdpp Require Import base numbers list strings pretty.

Local Open Scope Z_scope.

(** ** Go's [time] package

    An instant is the number of nanoseconds elapsed since the zero [Time];
    a [Duration] is a signed count of nanoseconds.  Both are unbounded here:
    the saturation of [Time.Add] at the far ends of the representable range
    is not modelled. *)
Module time.

Definition Duration := Z.
Definition Time := Z.

Definition Millisecond : Duration := 1000000.

Definition IsZero (t : Time) : bool := t =? 0.
Definition Add (t : Time) (d : Duration) : Time := t + d.
(** [t.After(u)] *)
Definition After (t u : Time) : bool := u <? t.

End time.

(** ** Go values *)

(** [context.Context]: an interface value; [None] stands for [nil]. *)
Inductive Context :=
| Background
| Derived (id : nat).

(** The non-nil [error] values that occur: the two sentinels of package
    [renewable], the four [fmt.Errorf] messages (with their arguments) and
    whatever the producer returns. *)
Inductive error_value :=
| ErrContextNil
| ErrProduceNil
| ErrDefaultNegative (d : time.Duration)
| ErrErrorNegative (d : time.Duration)
| ErrDefaultHardLessThanSoft (hard soft : time.Duration)
| ErrErrorHardLessThanSoft (hard soft : time.Duration)
| ErrProducer (msg : string).

(** [error]: [None] is [nil]. *)
Definition error := option error_value.

(** [interface{}]: [None] is [nil]; the payloads are integers, as in the
    package's tests. *)
Definition iface := option Z.

(** ** Package [periods] *)
Module periods.

Record Periods := New { Default : time.Duration; Error : time.Duration }.

Definition Validate (pp : Periods) : error :=
  if Default pp <? 0 then Some (ErrDefaultNegative (Default pp))
  else if Error pp <? 0 then Some (ErrErrorNegative (Error pp))
  else None.

Definition Period (pp : Periods) (err : error) : time.Duration :=
  match err with
  | Some _ => Error pp
  | None => Default pp
  end.

Definition Same (period : time.Duration) : Periods :=
  {| Default := period; Error := period |}.

End periods.

Import periods.

(** ** Package [renewable]: the cached result *)

(** [ProduceFunc]: the caller's function.  It may have effects of its own,
    so its outcome is indexed by the number of invocations made before
    it. *)
Definition ProduceFunc := Context -> nat -> iface * error.

Record result := mkResult { val : iface; err : error; moment : time.Time }.

(** [result{}] *)
Definition zero_result : result :=
  {| val := None; err := None; moment := 0 |}.

Definition isValidAt (r : result) (m : time.Time) (pp : Periods) : bool :=
  negb (time.IsZero (moment r))
  && time.After (time.Add (moment r) (Period pp (err r))) m.

(** [isValidNow]: [now] is what [time.Now()] returns when it is called. *)
Definition isValidNow (r : result) (now : time.Time) (pp : Periods) : bool :=
  isValidAt r now pp.

Definition expand (r : result) : iface * error := (val r, err r).

(** [result.produce] assigns through the pointer, field by field: the tuple
    assignment [r.val, r.err = produce(ctx)] stores the value, then the
    error, and the next statement stores the moment. *)
Definition assign_val (r : result) (v : iface) : result :=
  {| val := v; err := err r; moment := moment r |}.

Definition assign_err (r : result) (e : error) : result :=
  {| val := val r; err := e; moment := moment r |}.

Definition assign_moment (r : result) (now : time.Time) : result :=
  {| val := val r; err := err r; moment := now |}.

(** [produceResult] runs [produce] on a local, zero [result] and returns
    it: [out] is what the producer returned, [now] the time read after
    it. *)
Definition produceResult (out : iface * error) (now : time.Time) : result :=
  assign_moment (assign_err (assign_val zero_result (fst out)) (snd out)) now.

(** ** Go's [sync] package: lock states *)
Module sync.

Record RWMutex := { readers : nat; writer : bool }.
Definition RWMutex_zero : RWMutex := {| readers := 0; writer := false |}.

(** Each operation returns [None] where the caller has to wait. *)
Definition RLock (l : RWMutex) : option RWMutex :=
  if writer l then None
  else Some {| readers := S (readers l); writer := false |}.
Definition RUnlock (l : RWMutex) : RWMutex :=
  {| readers := Nat.pred (readers l); writer := writer l |}.
Definition Lock (l : RWMutex) : option RWMutex :=
  if writer l then None
  else match readers l with
       | O => Some {| readers := O; writer := true |}
       | S _ => None
       end.
Definition Unlock (l : RWMutex) : RWMutex :=
  {| readers := readers l; writer := false |}.

(** [sync.Mutex]: [true] when held. *)
Definition Mutex := bool.

End sync.

(** ** The constructors *)

Record onDemand := {
  od_ctx : Context;
  od_produce : ProduceFunc;
  od_periods : Periods;
  od_result : result;          (* the fresh [&result{}] *)
  od_lock : sync.RWMutex       (* the fresh [&sync.RWMutex{}] *)
}.

Definition OnDemand (ctx : option Context) (produce : option ProduceFunc)
    (pp : Periods) : option onDemand * error :=
  match ctx with
  | None => (None, Some ErrContextNil)
  | Some c =>
    match produce with
    | None => (None, Some ErrProduceNil)
    | Some f =>
      match Validate pp with
      | Some e => (None, Some e)
      | None =>
        (Some {| od_ctx := c; od_produce := f; od_periods := pp;
                 od_result := zero_result; od_lock := sync.RWMutex_zero |},
         None)
      end
    end
  end.

Definition OnDemandNoCtx (produce : option ProduceFunc) (pp : Periods)
    : option onDemand * error :=
  OnDemand (Some Background) produce pp.

Record softHard := {
  sh_ctx : Context;
  sh_produce : ProduceFunc;
  sh_soft : Periods;
  sh_hard : Periods;
  sh_result : option result;   (* the fresh [&atomic.Value{}]: nothing stored *)
  sh_lock : sync.Mutex;
  sh_state : N                 (* uint32, zero-initialised *)
}.

Definition SoftHard (ctx : option Context) (produce : option ProduceFunc)
    (soft hard : Periods) : option softHard * error :=
  match ctx with
  | None => (None, Some ErrContextNil)
  | Some c =>
    match produce with
    | None => (None, Some ErrProduceNil)
    | Some f =>
      match Validate soft with
      | Some e => (None, Some e)
      | None =>
        if Default hard <? Default soft then
          (None, Some (ErrDefaultHardLessThanSoft (Default hard) (Default soft)))
        else if Error hard <? Error soft then
          (None, Some (ErrErrorHardLessThanSoft (Error hard) (Error soft)))
        else
          (Some {| sh_ctx := c; sh_produce := f; sh_soft := soft;
                   sh_hard := hard; sh_result := None; sh_lock := false;
                   sh_state := 0%N |},
           None)
      end
    end
  end.

Definition SoftHardNoCtx (produce : option ProduceFunc) (soft hard : Periods)
    : option softHard * error :=
  SoftHard (Some Background) produce soft hard.

(** The classes of construction errors. *)
Definition is_InvalidPeriod (e : error) : Prop :=
  match e with
  | Some (ErrDefaultNegative _) | Some (ErrErrorNegative _) => True
  | _ => False
  end.

Definition is_InvertedHardSoft (e : error) : Prop :=
  match e with
  | Some (ErrDefaultHardLessThanSoft _ _)
  | Some (ErrErrorHardLessThanSoft _ _) => True
  | _ => False
  end.

(** ** Goroutine pools *)

(** Number of goroutines of a pool that satisfy [f]. *)
Fixpoint count {A} (f : A -> bool) (l : list A) : nat :=
  match l with
  | [] => O
  | x :: l' => ((if f x then 1 else 0) + count f l')%nat
  end.

(** ** The on-demand strategy as a transition system *)
Module OD.

(** What the goroutines share: the wall clock, the number of calls of
    [produce] made so far, the struct [r.result] points to and the state
    of [r.lock]. *)
Record shared := {
  clock : time.Time;
  calls : nat;
  cell : result;
  lock : sync.RWMutex
}.

Definition set_clock (m : shared) (t : time.Time) : shared :=
  {| clock := t; calls := calls m; cell := cell m; lock := lock m |}.
Definition set_calls (m : shared) (n : nat) : shared :=
  {| clock := clock m; calls := n; cell := cell m; lock := lock m |}.
Definition set_cell (m : shared) (c : result) : shared :=
  {| clock := clock m; calls := calls m; cell := c; lock := lock m |}.
Definition set_lock (m : shared) (l : sync.RWMutex) : shared :=
  {| clock := clock m; calls := calls m; cell := cell m; lock := l |}.

(** The [return] statement a call of [Get] left through. *)
Inductive exit := Ret74 | Ret81 | Ret85.

(** Program counters of [onDemand.Get], named after the lines of
    on_demand.go; [L312], [L312e] and [L313] are the assignments of
    [result.produce]. *)
Inductive pc :=
| L69                       (* r.lock.RLock() *)
| L70                       (* res := r.get() *)
| L71 (res : bool)          (* r.lock.RUnlock(); [res] is [res != nil] *)
| L74                       (* return res.expand() *)
| L77                       (* r.lock.Lock() *)
| L80                       (* res = r.get(); res != nil *)
| L81                       (* return res.expand() *)
| L84                       (* r.result.produce(...): produce is called *)
| L312 (k : nat)            (* call number k returns; r.val = ... *)
| L312e (e : error)         (* r.err = ... *)
| L313                      (* r.moment = time.Now() *)
| L85                       (* return r.result.expand() *)
| L78 (ex : exit) (out : iface * error)   (* deferred r.lock.Unlock() *)
| Done (ex : exit) (out : iface * error).

(** [r.get() != nil], evaluated now *)
Definition get (r : onDemand) (m : shared) : bool :=
  isValidNow (cell m) (clock m) (od_periods r).

(** One statement of one goroutine; [None] where it cannot move. *)
Definition tstep (r : onDemand) (m : shared) (p : pc) : option (shared * pc) :=
  match p with
  | L69 =>
      match sync.RLock (lock m) with
      | Some l => Some (set_lock m l, L70)
      | None => None
      end
  | L70 => Some (m, L71 (get r m))
  | L71 res =>
      Some (set_lock m (sync.RUnlock (lock m)), if res then L74 else L77)
  | L74 => Some (m, Done Ret74 (expand (cell m)))
  | L77 =>
      match sync.Lock (lock m) with
      | Some l => Some (set_lock m l, L80)
      | None => None
      end
  | L80 => Some (m, if get r m then L81 else L84)
  | L81 => Some (m, L78 Ret81 (expand (cell m)))
  | L84 => Some (set_calls m (S (calls m)), L312 (calls m))
  | L312 k =>
      let out := od_produce r (od_ctx r) k in
      Some (set_cell m (assign_val (cell m) (fst out)), L312e (snd out))
  | L312e e => Some (set_cell m (assign_err (cell m) e), L313)
  | L313 => Some (set_cell m (assign_moment (cell m) (clock m)), L85)
  | L85 => Some (m, L78 Ret85 (expand (cell m)))
  | L78 ex out => Some (set_lock m (sync.Unlock (lock m)), Done ex out)
  | Done _ _ => None
  end.

(** A call of [produce] has started and its outcome is not yet stored
    in full. *)
Definition producing (p : pc) : bool :=
  match p with
  | L312 _ | L312e _ | L313 => true
  | _ => false
  end.

(** Between [Lock] and the deferred [Unlock]. *)
Definition exclusive (p : pc) : bool :=
  match p with
  | L80 | L81 | L84 | L312 _ | L312e _ | L313 | L85 | L78 _ _ => true
  | _ => false
  end.

(** Between [RLock] and [RUnlock]. *)
Definition reading (p : pc) : bool :=
  match p with
  | L70 | L71 _ => true
  | _ => false
  end.

Record state := { mem : shared; pool : list pc }.

(** What may happen next: time passes, a caller enters [Get], or
    goroutine [i] executes its next statement. *)
Inductive label :=
| Tick (d : time.Duration)
| Call
| Run (i : nat).

Definition step (r : onDemand) (l : label) (s : state) : option state :=
  match l with
  | Tick d =>
      if 0 <=? d
      then Some {| mem := set_clock (mem s) (clock (mem s) + d);
                   pool := pool s |}
      else None
  | Call => Some {| mem := mem s; pool := pool s ++ [L69] |}
  | Run i =>
      match pool s !! i with
      | Some p =>
          match tstep r (mem s) p with
          | Some (m', p') => Some {| mem := m'; pool := <[i := p']> (pool s) |}
          | None => None
          end
      | None => None
      end
  end.

Fixpoint exec (r : onDemand) (ls : list label) (s : state) : option state :=
  match ls with
  | [] => Some s
  | l :: ls' =>
      match step r l s with
      | Some s' => exec r ls' s'
      | None => None
      end
  end.

(** The instance as the constructor leaves it, at wall-clock time [t0]. *)
Definition init (r : onDemand) (t0 : time.Time) : state :=
  {| mem := {| clock := t0; calls := O; cell := od_result r;
               lock := od_lock r |};
     pool := [] |}.

Inductive reachable (r : onDemand) : state -> Prop :=
| reach_init t0 : 0 < t0 -> reachable r (init r t0)
| reach_step s l s' :
    reachable r s -> step r l s = Some s' -> reachable r s'.

(** A goroutine running undisturbed: before each of its statements the
    clock advances by the next element of [ds]. *)
Fixpoint solo (r : onDemand) (ds : list time.Duration) (m : shared) (p : pc)
    : shared * pc :=
  match ds with
  | [] => (m, p)
  | d :: ds' =>
      match tstep r (set_clock m (clock m + d)) p with
      | Some (m', p') => solo r ds' m' p'
      | None => (m, p)
      end
  end.

End OD.

(** ** The soft/hard strategy as a transition system *)
Module SH.

(** What the goroutines share: the wall clock, the number of calls of
    [produce] made so far, the [atomic.Value] behind [r.result] ([None]
    until the first [Store]), the flag [r.state] and the mutex [r.lock]
    (which is also the locker of [r.condition]). *)
Record shared := {
  clock : time.Time;
  calls : nat;
  cell : option result;
  state : N;
  mu : sync.Mutex
}.

Definition set_clock (m : shared) (t : time.Time) : shared :=
  {| clock := t; calls := calls m; cell := cell m; state := state m;
     mu := mu m |}.
Definition set_calls (m : shared) (n : nat) : shared :=
  {| clock := clock m; calls := n; cell := cell m; state := state m;
     mu := mu m |}.
Definition set_cell (m : shared) (c : option result) : shared :=
  {| clock := clock m; calls := calls m; cell := c; state := state m;
     mu := mu m |}.
Definition set_state (m : shared) (v : N) : shared :=
  {| clock := clock m; calls := calls m; cell := cell m; state := v;
     mu := mu m |}.
Definition set_mu (m : shared) (b : sync.Mutex) : shared :=
  {| clock := clock m; calls := calls m; cell := cell m; state := state m;
     mu := b |}.

(** The [return] statement a call of [Get] left through. *)
Inductive exit := Ret105 | Ret121 | Ret129 | Ret144 | Ret149 | Ret159.

(** Program counters: lines of [softHard.Get], then the goroutine that
    [updateAsync] starts.  The suffixes [r] and [m] mark the two
    assignments of [result.produce] inside [produceResult]. *)
Inductive pc :=
| L101                                    (* res, ok := r.result.Load().(result) *)
| L102 (res : result)                     (* now := time.Now(); tests of 104 and 108 *)
| L109 (res : result) (now : time.Time)   (* CompareAndSwapUint32(&r.state, 0, 1) *)
| L110 (now : time.Time)                  (* res = r.result.Load().(result); test *)
| L111 (res : result)                     (* r.lock.Lock() *)
| L114 (res : result)                     (* StoreUint32(&r.state, 0) *)
| L115 (res : result)                     (* r.condition.Broadcast() *)
| L117 (res : result)                     (* r.updateAsync() *)
| L112 (res : result)                     (* deferred r.lock.Unlock() of line 112 *)
| L125                                    (* r.lock.Lock() *)
| L128                                    (* res, ok := r.result.Load().(result) *)
| L128n (res : result)                    (* res.isValidNow(r.soft) *)
| L132                                    (* CompareAndSwapUint32(&r.state, 0, 1) *)
| L133                                    (* LoadUint32(&r.state) > 0 *)
| L134                                    (* r.condition.Wait(): unlock, suspend *)
| Parked                                  (* suspended inside Wait *)
| Woken                                   (* Wait: lock again before returning *)
| L138                                    (* res, ok := r.result.Load().(result) *)
| L139 (res : result)                     (* now := time.Now(); tests of 141 and 147 *)
| L142 (res : result)                     (* StoreUint32(&r.state, 0) *)
| L143 (res : result)                     (* r.condition.Broadcast() *)
| L148 (res : result)                     (* r.updateAsync() *)
| L153                                    (* produceResult: produce is called *)
| L153r (k : nat)                         (* call number k returns *)
| L153m (out : iface * error)             (* r.moment = time.Now() *)
| L154 (res : result)                     (* r.result.Store(res) *)
| L156 (res : result)                     (* StoreUint32(&r.state, 0) *)
| L157 (res : result)                     (* r.condition.Broadcast() *)
| L126 (ex : exit) (res : result)         (* deferred r.lock.Unlock() of line 126 *)
| Done (ex : exit) (res : result)         (* Get has returned res.expand() *)
| A90                                     (* produceResult: produce is called *)
| A90r (k : nat)                          (* call number k returns *)
| A90m (out : iface * error)              (* r.moment = time.Now() *)
| A90s (res : result)                     (* r.result.Store(...) *)
| A92                                     (* r.lock.Lock() *)
| A95                                     (* StoreUint32(&r.state, 0) *)
| A96                                     (* r.condition.Broadcast() *)
| A93                                     (* deferred r.lock.Unlock() *)
| AExit.

(** What a statement does to the other goroutines. *)
Inductive effect :=
| Silent
| Go          (* the [go] statement of updateAsync *)
| Broadcast.  (* r.condition.Broadcast() *)

(** One statement of one goroutine; [None] where it cannot move: a lock
    that is held, a goroutine suspended in [Wait] or finished, and the
    type assertion of line 110 on an empty [atomic.Value]. *)
Definition tstep (r : softHard) (m : shared) (p : pc)
    : option (shared * pc * effect) :=
  let soft := sh_soft r in
  let hard := sh_hard r in
  match p with
  | L101 =>
      match cell m with
      | Some res => Some (m, L102 res, Silent)
      | None => Some (m, L125, Silent)
      end
  | L102 res =>
      let now := clock m in
      if isValidAt res now soft then Some (m, Done Ret105 res, Silent)
      else if isValidAt res now hard then Some (m, L109 res now, Silent)
      else Some (m, L125, Silent)
  | L109 res now =>
      if (state m =? 0)%N then Some (set_state m 1%N, L110 now, Silent)
      else Some (m, Done Ret121 res, Silent)
  | L110 now =>
      match cell m with
      | Some res =>
          if isValidAt res now soft then Some (m, L111 res, Silent)
          else Some (m, L117 res, Silent)
      | None => None
      end
  | L111 res =>
      if mu m then None else Some (set_mu m true, L114 res, Silent)
  | L114 res => Some (set_state m 0%N, L115 res, Silent)
  | L115 res => Some (m, L112 res, Broadcast)
  | L117 res => Some (m, Done Ret121 res, Go)
  | L112 res => Some (set_mu m false, Done Ret121 res, Silent)
  | L125 =>
      if mu m then None else Some (set_mu m true, L128, Silent)
  | L128 =>
      match cell m with
      | Some res => Some (m, L128n res, Silent)
      | None => Some (m, L132, Silent)
      end
  | L128n res =>
      if isValidNow res (clock m) soft then Some (m, L126 Ret129 res, Silent)
      else Some (m, L132, Silent)
  | L132 =>
      if (state m =? 0)%N then Some (set_state m 1%N, L138, Silent)
      else Some (m, L133, Silent)
  | L133 =>
      if (0 <? state m)%N then Some (m, L134, Silent)
      else Some (m, L132, Silent)
  | L134 => Some (set_mu m false, Parked, Silent)
  | Parked => None
  | Woken =>
      if mu m then None else Some (set_mu m true, L133, Silent)
  | L138 =>
      match cell m with
      | Some res => Some (m, L139 res, Silent)
      | None => Some (m, L153, Silent)
      end
  | L139 res =>
      let now := clock m in
      if isValidAt res now soft then Some (m, L142 res, Silent)
      else if isValidAt res now hard then Some (m, L148 res, Silent)
      else Some (m, L153, Silent)
  | L142 res => Some (set_state m 0%N, L143 res, Silent)
  | L143 res => Some (m, L126 Ret144 res, Broadcast)
  | L148 res => Some (m, L126 Ret149 res, Go)
  | L153 => Some (set_calls m (S (calls m)), L153r (calls m), Silent)
  | L153r k => Some (m, L153m (sh_produce r (sh_ctx r) k), Silent)
  | L153m out => Some (m, L154 (produceResult out (clock m)), Silent)
  | L154 res => Some (set_cell m (Some res), L156 res, Silent)
  | L156 res => Some (set_state m 0%N, L157 res, Silent)
  | L157 res => Some (m, L126 Ret159 res, Broadcast)
  | L126 ex res => Some (set_mu m false, Done ex res, Silent)
  | Done _ _ => None
  | A90 => Some (set_calls m (S (calls m)), A90r (calls m), Silent)
  | A90r k => Some (m, A90m (sh_produce r (sh_ctx r) k), Silent)
  | A90m out => Some (m, A90s (produceResult out (clock m)), Silent)
  | A90s res => Some (set_cell m (Some res), A92, Silent)
  | A92 =>
      if mu m then None else Some (set_mu m true, A95, Silent)
  | A95 => Some (set_state m 0%N, A96, Silent)
  | A96 => Some (m, A93, Broadcast)
  | A93 => Some (set_mu m false, AExit, Silent)
  | AExit => None
  end.

(** A call of [produce] has started and its outcome is not yet stored. *)
Definition producing (p : pc) : bool :=
  match p with
  | L153r _ | L153m _ | L154 _ | A90r _ | A90m _ | A90s _ => true
  | _ => false
  end.

(** From a successful compare-and-swap up to the store that sets
    [r.state] back to 0; the goroutine of [updateAsync] inherits the
    flag from the caller that started it. *)
Definition owner (p : pc) : bool :=
  match p with
  | L110 _ | L111 _ | L114 _ | L117 _
  | L138 | L139 _ | L142 _ | L148 _
  | L153 | L153r _ | L153m _ | L154 _ | L156 _
  | A90 | A90r _ | A90m _ | A90s _ | A92 | A95 => true
  | _ => false
  end.

(** The exits of the part of [Get] that starts at line 125. *)
Definition blocking (ex : exit) : bool :=
  match ex with
  | Ret129 | Ret144 | Ret149 | Ret159 => true
  | _ => false
  end.

(** A goroutine with two pieces of bookkeeping that the code does not
    keep: the time at which it was started ([born]: for a caller, the
    time [Get] was invoked) and, once it has reached line 125, the clock
    reading at which it gave up the fast path together with the result
    it had found ([slow]). *)
Record goroutine := {
  born : time.Time;
  slow : option (time.Time * option result);
  ip : pc
}.

Definition enter (clk : time.Time) (from to : pc)
    (old : option (time.Time * option result))
    : option (time.Time * option result) :=
  match to with
  | L125 =>
      Some (clk, match from with L102 res => Some res | _ => None end)
  | _ => old
  end.

Definition wake (g : goroutine) : goroutine :=
  match ip g with
  | Parked => {| born := born g; slow := slow g; ip := Woken |}
  | _ => g
  end.

Record state_ := { mem : shared; pool : list goroutine }.

Inductive label :=
| Tick (d : time.Duration)
| Call
| Run (i : nat).

Definition fresh (clk : time.Time) (p : pc) : goroutine :=
  {| born := clk; slow := None; ip := p |}.

Definition step (r : softHard) (l : label) (s : state_) : option state_ :=
  match l with
  | Tick d =>
      if 0 <=? d
      then Some {| mem := set_clock (mem s) (clock (mem s) + d);
                   pool := pool s |}
      else None
  | Call =>
      Some {| mem := mem s; pool := pool s ++ [fresh (clock (mem s)) L101] |}
  | Run i =>
      match pool s !! i with
      | Some g =>
          match tstep r (mem s) (ip g) with
          | Some (m', p', eff) =>
              let g' := {| born := born g;
                           slow := enter (clock (mem s)) (ip g) p' (slow g);
                           ip := p' |} in
              let pool' := <[i := g']> (pool s) in
              Some {| mem := m';
                      pool := match eff with
                              | Silent => pool'
                              | Go => pool' ++ [fresh (clock (mem s)) A90]
                              | Broadcast => wake <$> pool'
                              end |}
          | None => None
          end
      | None => None
      end
  end.

Fixpoint exec (r : softHard) (ls : list label) (s : state_) : option state_ :=
  match ls with
  | [] => Some s
  | l :: ls' =>
      match step r l s with
      | Some s' => exec r ls' s'
      | None => None
      end
  end.

(** The instance as the constructor leaves it, at wall-clock time [t0]. *)
Definition init (r : softHard) (t0 : time.Time) : state_ :=
  {| mem := {| clock := t0; calls := O; cell := sh_result r;
               state := sh_state r; mu := sh_lock r |};
     pool := [] |}.

Inductive reachable (r : softHard) : state_ -> Prop :=
| reach_init t0 : 0 < t0 -> reachable r (init r t0)
| reach_step s l s' :
    reachable r s -> step r l s = Some s' -> reachable r s'.

(** A goroutine running undisturbed: before each of its statements the
    clock advances by the next element of [ds]; the effects of its
    statements are collected in order. *)
Fixpoint solo (r : softHard) (ds : list time.Duration) (m : shared) (p : pc)
    : shared * pc * list effect :=
  match ds with
  | [] => (m, p, [])
  | d :: ds' =>
      match tstep r (set_clock m (clock m + d)) p with
      | Some (m', p', eff) =>
          let '(m'', p'', effs) := solo r ds' m' p' in
          (m'', p'', match eff with Silent => effs | _ => eff :: effs end)
      | None => (m, p, [])
      end
  end.

End SH.

Definition b2n (b : bool) : nat := if b then 1%nat else 0%nat.

(** ** Invariants of the two transition systems *)

(** The calls of [Get] that have called [produce]. *)
Definition od_invoked (p : OD.pc) : bool :=
  match p with
  | OD.L312 _ | OD.L312e _ | OD.L313 | OD.L85
  | OD.L78 OD.Ret85 _ | OD.Done OD.Ret85 _ => true
  | _ => false
  end.

(** The calls of [Get] that have returned. *)
Definition od_returned (p : OD.pc) : bool :=
  match p with
  | OD.Done _ _ => true
  | _ => false
  end.

(** On-demand: the goroutines between [Lock] and [Unlock] are counted by
    the writer bit, those between [RLock] and [RUnlock] by the reader
    count, a writer excludes readers, the stored moment is a past reading
    of the clock, and [calls] counts the callers that went through line
    84. *)
Definition od_inv (s : OD.state) : Prop :=
  let l := OD.lock (OD.mem s) in
  count OD.exclusive (OD.pool s) = b2n (sync.writer l) /\
  count OD.reading (OD.pool s) = sync.readers l /\
  (sync.writer l = true -> sync.readers l = O) /\
  moment (OD.cell (OD.mem s)) <= OD.clock (OD.mem s) /\
  0 < OD.clock (OD.mem s) /\
  OD.calls (OD.mem s) = count od_invoked (OD.pool s).

(** An instance as [OnDemand] builds it. *)
Definition od_built (r : onDemand) : Prop :=
  exists ctx produce pp, fst (OnDemand ctx produce pp) = Some r.

(** An instance as [SoftHard] builds it. *)
Definition sh_built (r : softHard) : Prop :=
  exists ctx produce soft hard, fst (SoftHard ctx produce soft hard) = Some r.

Definition sh_owner (g : SH.goroutine) : bool := SH.owner (SH.ip g).
Definition sh_producing (g : SH.goroutine) : bool := SH.producing (SH.ip g).

(** The goroutines that have called [produce]. *)
Definition sh_invoked (g : SH.goroutine) : bool :=
  match SH.ip g with
  | SH.L153r _ | SH.L153m _ | SH.L154 _ | SH.L156 _ | SH.L157 _
  | SH.L126 SH.Ret159 _ | SH.Done SH.Ret159 _
  | SH.A90r _ | SH.A90m _ | SH.A90s _ | SH.A92 | SH.A95 | SH.A96 | SH.A93
  | SH.AExit => true
  | _ => false
  end.


(** Soft/hard: [r.state] is 0 or 1 and counts the goroutines that own the
    flag; [calls] counts the goroutines that went through line 153 or
    line 90. *)
Definition sh_flag_inv (s : SH.state_) : Prop :=
  (SH.state (SH.mem s) <= 1)%N /\
  count sh_owner (SH.pool s) = N.to_nat (SH.state (SH.mem s)) /\
  SH.calls (SH.mem s) = count sh_invoked (SH.pool s).

(** Where a goroutine stands with respect to line 125 of [Get]: before it
    (or not a caller at all), past it without a result to return yet, or
    holding the result it is about to return, either one loaded from the
    cell or the one it has produced itself. *)
Inductive phase :=
| Fast
| Blocked
| Cached (res : result)
| Fresh (res : result).

Definition phase_of (p : SH.pc) : phase :=
  match p with
  | SH.L125 | SH.L128 | SH.L128n _ | SH.L132 | SH.L133 | SH.L134
  | SH.Parked | SH.Woken | SH.L138 | SH.L139 _
  | SH.L153 | SH.L153r _ | SH.L153m _ => Blocked
  | SH.L142 res | SH.L143 res | SH.L148 res
  | SH.L126 SH.Ret129 res | SH.L126 SH.Ret144 res | SH.L126 SH.Ret149 res
  | SH.Done SH.Ret129 res | SH.Done SH.Ret144 res | SH.Done SH.Ret149 res =>
      Cached res
  | SH.L154 res | SH.L156 res | SH.L157 res
  | SH.L126 SH.Ret159 res | SH.Done SH.Ret159 res => Fresh res
  | _ => Fast
  end.

(** The bookkeeping of a goroutine is consistent with the clock [clk], and
    the result it holds past line 125 is either within its hard period at
    the reading [lo] at which the fast path was given up, or was produced
    no earlier than [lo]. *)
Definition sh_good (r : softHard) (clk : time.Time) (g : SH.goroutine) : Prop :=
  SH.born g <= clk /\
  match phase_of (SH.ip g), SH.slow g with
  | Fast, None => True
  | Fast, Some _ => False
  | _, None => False
  | ph, Some (lo, found) =>
      SH.born g <= lo /\ lo <= clk /\
      (forall r0, found = Some r0 -> isValidAt r0 lo (sh_hard r) = false) /\
      match ph with
      | Cached res => isValidAt res lo (sh_hard r) = true
      | Fresh res => lo <= moment res
      | _ => True
      end
  end.






(** ** The instances of the package's tests *)

Definition defaultPeriod : time.Duration := 75 * time.Millisecond.
Definition errorPeriod : time.Duration := 100 * time.Millisecond.

(** The producer of the tests: 0, error "0", 1, error "1", ... *)
Definition test_produce : ProduceFunc :=
  fun _ k =>
    if Nat.even k then (Some (Z.of_nat (k / 2)), None)
    else (None, Some (ErrProducer (pretty (k / 2)%nat))).

(** [OnDemandNoCtx(produce, periods.New(defaultPeriod, errorPeriod))] *)
Definition test_onDemand : onDemand :=
  {| od_ctx := Background; od_produce := test_produce;
     od_periods := New defaultPeriod errorPeriod;
     od_result := zero_result; od_lock := sync.RWMutex_zero |}.

(** [SoftHardNoCtx(produce, periods.New(defaultPeriod, errorPeriod),
    periods.New(defaultPeriod*2, errorPeriod*2))] *)
Definition test_softHard : softHard :=
  {| sh_ctx := Background; sh_produce := test_produce;
     sh_soft := New defaultPeriod errorPeriod;
     sh_hard := New (defaultPeriod * 2) (errorPeriod * 2);
     sh_result := None; sh_lock := false; sh_state := 0%N |}.

(** The wall clock at which the example runs start. *)
Definition test_epoch : time.Time := 1000 * time.Millisecond.

(** On-demand: caller 0 fills the cell with (0, nil); 80 ms later caller 1
    replaces it with (nil, error "0"); 90 ms later caller 2 finds that
    result valid under the read lock and releases the lock; 20 ms later the
    result has expired, caller 3 takes the write lock, calls [produce] and
    assigns the new value; caller 2 then executes line 74. *)
Definition od_schedule_torn : list OD.label :=
  OD.Call :: repeat (OD.Run 0) 11
  ++ OD.Tick (80 * time.Millisecond)
  :: OD.Call :: repeat (OD.Run 1) 11
  ++ OD.Tick (90 * time.Millisecond)
  :: OD.Call :: repeat (OD.Run 2) 3
  ++ OD.Tick (20 * time.Millisecond)
  :: OD.Call :: repeat (OD.Run 3) 7
  ++ [OD.Run 2].

(** On-demand, one caller stopped inside [produce]. *)
Definition od_schedule_producing : list OD.label :=
  OD.Call :: repeat (OD.Run 0) 6.

(** Soft/hard, one caller stopped inside [produce]. *)
Definition sh_schedule_producing : list SH.label :=
  SH.Call :: repeat (SH.Run 0) 6.

(** Soft/hard: caller 0 fills the cell; 200 ms later caller 1 finds the
    result past its hard deadline, produces and stamps its result; 50 ms
    pass before it stores it, and in between caller 2 enters [Get], loads
    the old result and queues for the lock; caller 1 then stores and
    returns, and caller 2 returns what caller 1 stored. *)
Definition sh_schedule_race : list SH.label :=
  SH.Call :: repeat (SH.Run 0) 12
  ++ SH.Tick (200 * time.Millisecond)
  :: SH.Call :: repeat (SH.Run 1) 11
  ++ SH.Tick (50 * time.Millisecond)
  :: SH.Call :: repeat (SH.Run 2) 2
  ++ repeat (SH.Run 1) 4
  ++ repeat (SH.Run 2) 4.





(** The result of the first call of the test producer, stored at the
    epoch. *)
Definition first_result : result :=
  {| val := Some 0; err := None; moment := test_epoch |}.

(** Shared memory once [first_result] is stored and the strategy is at
    rest, 80 ms later. *)
Definition od_mem_rest : OD.shared :=
  {| OD.clock := test_epoch + 80 * time.Millisecond; OD.calls := 1;
     OD.cell := first_result; OD.lock := sync.RWMutex_zero |}.

Definition sh_mem_rest : SH.shared :=
  {| SH.clock := test_epoch + 80 * time.Millisecond; SH.calls := 1;
     SH.cell := Some first_result; SH.state := 0%N; SH.mu := false |}.

(** A producer that returns a value together with an error. *)
Definition both_produce : ProduceFunc :=
  fun _ k => (Some (Z.of_nat k), Some (ErrProducer "partial")).



(** The schedule in which goroutine [i] is the only one to move, the clock
    advancing by the next element of [ds] before each of its statements. *)
Definition od_alone (i : nat) (ds : list time.Duration) : list OD.label :=
  flat_map (fun d => [OD.Tick d; OD.Run i]) ds.

Definition sh_alone (i : nat) (ds : list time.Duration) : list SH.label :=
  flat_map (fun d => [SH.Tick d; SH.Run i]) ds.

(** The scenario of the sequential test: [Get] at 0, 70, 80, 170 and
    190 ms, each call running to its end before the next one starts. *)
Definition od_schedule_scenario : list OD.label :=
  OD.Call :: repeat (OD.Run 0) 11
  ++ OD.Tick (70 * time.Millisecond) :: OD.Call :: repeat (OD.Run 1) 4
  ++ OD.Tick (10 * time.Millisecond) :: OD.Call :: repeat (OD.Run 2) 11
  ++ OD.Tick (90 * time.Millisecond) :: OD.Call :: repeat (OD.Run 3) 4
  ++ OD.Tick (20 * time.Millisecond) :: OD.Call :: repeat (OD.Run 4) 11.

(** Soft/hard with the periods of the tests: [Get] at 0 ms; [Get] at 80 ms
    returns the stale result and starts the refresh (goroutine 2); [Get] at
    81 ms, before the refresh has run, returns the stale result too; then
    the refresh runs. *)
Definition sh_schedule_scenario : list SH.label :=
  SH.Call :: repeat (SH.Run 0) 12
  ++ SH.Tick (80 * time.Millisecond) :: SH.Call :: repeat (SH.Run 1) 5
  ++ SH.Tick (1 * time.Millisecond) :: SH.Call :: repeat (SH.Run 3) 3
  ++ repeat (SH.Run 2) 8.


(** On-demand: caller 0 fills the cell with (0, nil); 50 ms later caller 1
    finds that result valid under the read lock and releases the lock; 30 ms
    later the result has expired, caller 2 takes the write lock, calls
    [produce], which fails, and assigns the value; caller 1 then executes
    line 74; caller 2 runs to its end. *)
Definition od_schedule_lost : list OD.label :=
  OD.Call :: repeat (OD.Run 0) 11
  ++ OD.Tick (50 * time.Millisecond)
  :: OD.Call :: repeat (OD.Run 1) 3
  ++ OD.Tick (30 * time.Millisecond)
  :: OD.Call :: repeat (OD.Run 2) 7
  ++ OD.Run 1 :: repeat (OD.Run 2) 4.

(** A producer whose call number [k] returns the value [k] together with an
    error that carries [k]. *)
Definition pair_produce : ProduceFunc :=
  fun _ k => (Some (Z.of_nat k), Some (ErrProducer (pretty k))).

(** [OnDemandNoCtx(produce, periods.New(defaultPeriod, errorPeriod))] with
    that producer. *)
Definition pair_onDemand : onDemand :=
  {| od_ctx := Background; od_produce := pair_produce;
     od_periods := New defaultPeriod errorPeriod;
     od_result := zero_result; od_lock := sync.RWMutex_zero |}.

(** On-demand: caller 0 fills the cell with (0, error "0"); 50 ms later
    caller 1 finds that result valid under the read lock and releases the
    lock; 70 ms later the result has expired, caller 2 takes the write lock,
    calls [produce] and assigns the new value; caller 1 then executes line
    74; caller 2 runs to its end. *)
Definition od_schedule_mixed : list OD.label :=
  OD.Call :: repeat (OD.Run 0) 11
  ++ OD.Tick (50 * time.Millisecond)
  :: OD.Call :: repeat (OD.Run 1) 3
  ++ OD.Tick (70 * time.Millisecond)
  :: OD.Call :: repeat (OD.Run 2) 7
  ++ OD.Run 1 :: repeat (OD.Run 2) 4.





(** ** Further invariants of the soft/hard strategy *)

(** Between a [Lock] of [r.lock] and the matching [Unlock]; a goroutine
    suspended in [Wait], or about to lock again on its way out of [Wait],
    does not hold the mutex. *)
Definition sh_locked (g : SH.goroutine) : bool :=
  match SH.ip g with
  | SH.L114 _ | SH.L115 _ | SH.L112 _
  | SH.L128 | SH.L128n _ | SH.L132 | SH.L133 | SH.L134
  | SH.L138 | SH.L139 _ | SH.L142 _ | SH.L143 _ | SH.L148 _
  | SH.L153 | SH.L153r _ | SH.L153m _ | SH.L154 _ | SH.L156 _ | SH.L157 _
  | SH.L126 _ _ | SH.A95 | SH.A96 | SH.A93 => true
  | _ => false
  end.

(** About to suspend in [Wait] (line 134). *)
Definition sh_waiting (g : SH.goroutine) : bool :=
  match SH.ip g with
  | SH.L134 => true
  | _ => false
  end.

(** Suspended in [Wait]. *)
Definition sh_parked (g : SH.goroutine) : bool :=
  match SH.ip g with
  | SH.Parked => true
  | _ => false
  end.

(** About to call [r.condition.Broadcast()]. *)
Definition sh_notifying (g : SH.goroutine) : bool :=
  match SH.ip g with
  | SH.L115 _ | SH.L143 _ | SH.L157 _ | SH.A96 => true
  | _ => false
  end.

(** Holding the mutex elsewhere than at line 134 or before a broadcast. *)
Definition sh_locked_else (g : SH.goroutine) : bool :=
  sh_locked g && negb (sh_waiting g || sh_notifying g).

(** Holding a result loaded at line 101. *)
Definition sh_loaded (g : SH.goroutine) : bool :=
  match SH.ip g with
  | SH.L102 _ | SH.L109 _ _ | SH.L110 _ => true
  | _ => false
  end.

(** Nothing left to execute. *)
Definition sh_finished (g : SH.goroutine) : bool :=
  match SH.ip g with
  | SH.Done _ _ | SH.AExit => true
  | _ => false
  end.

(** The mutex bit counts the goroutines that hold the mutex; a goroutine
    about to suspend sees the flag set; and while a goroutine is suspended
    the flag is set or a broadcast is about to be made. *)
Definition sh_sync_inv (s : SH.state_) : Prop :=
  count sh_locked (SH.pool s) = b2n (SH.mu (SH.mem s)) /\
  ((0 < count sh_waiting (SH.pool s))%nat -> SH.state (SH.mem s) = 1%N) /\
  ((0 < count sh_parked (SH.pool s))%nat ->
   SH.state (SH.mem s) = 1%N \/ (0 < count sh_notifying (SH.pool s))%nat).

(** Once a result has been loaded the cell is not empty. *)
Definition sh_cell_inv (s : SH.state_) : Prop :=
  SH.cell (SH.mem s) = None -> count sh_loaded (SH.pool s) = O.

(** ** Where results come from *)

(** [res] is what [produceResult] made of one of the first [n] calls of
    [produce], stamped at a positive time no later than [clk]. *)
Definition sh_origin (r : softHard) (n : nat) (clk : time.Time) (res : result)
    : Prop :=
  exists (k : nat) (t : time.Time),
    (k < n)%nat /\ 0 < t /\ t <= clk /\
    res = produceResult (sh_produce r (sh_ctx r) k) t.

(** The result, the outcome of [produce] or the number of the call that a
    goroutine carries in its locals. *)
Definition sh_res (p : SH.pc) : option result :=
  match p with
  | SH.L102 res | SH.L109 res _ | SH.L111 res | SH.L114 res | SH.L115 res
  | SH.L117 res | SH.L112 res | SH.L128n res | SH.L139 res | SH.L142 res
  | SH.L143 res | SH.L148 res | SH.L154 res | SH.L156 res | SH.L157 res
  | SH.L126 _ res | SH.Done _ res | SH.A90s res => Some res
  | _ => None
  end.

Definition sh_out (p : SH.pc) : option (iface * error) :=
  match p with
  | SH.L153m out | SH.A90m out => Some out
  | _ => None
  end.

Definition sh_call (p : SH.pc) : option nat :=
  match p with
  | SH.L153r k | SH.A90r k => Some k
  | _ => None
  end.

Definition sh_prov_good (r : softHard) (n : nat) (clk : time.Time)
    (g : SH.goroutine) : Prop :=
  (forall res, sh_res (SH.ip g) = Some res -> sh_origin r n clk res) /\
  (forall out, sh_out (SH.ip g) = Some out ->
               exists k, (k < n)%nat /\ out = sh_produce r (sh_ctx r) k) /\
  (forall k, sh_call (SH.ip g) = Some k -> (k < n)%nat).

Definition sh_prov_inv (r : softHard) (s : SH.state_) : Prop :=
  0 < SH.clock (SH.mem s) /\
  (forall res, SH.cell (SH.mem s) = Some res ->
               sh_origin r (SH.calls (SH.mem s)) (SH.clock (SH.mem s)) res) /\
  Forall (sh_prov_good r (SH.calls (SH.mem s)) (SH.clock (SH.mem s))) (SH.pool s).

(** ** What the owner of the flag knows about the cell *)

(** Facts that hold for a goroutine at the given program points.  The ones
    about the cell concern goroutines that own the flag: nobody else stores
    into the cell meanwhile. *)
Definition sh_owner_good (r : softHard) (m : SH.shared) (g : SH.goroutine)
    : Prop :=
  match SH.ip g with
  | SH.L109 _ now | SH.L110 now => now <= SH.clock m
  | SH.L139 res => SH.cell m = Some res
  | SH.L117 res | SH.L148 res =>
      SH.cell m = Some res /\
      isValidAt res (SH.clock m) (sh_soft r) = false
  | SH.L153 =>
      forall res, SH.cell m = Some res ->
                  isValidAt res (SH.clock m) (sh_soft r) = false /\
                  isValidAt res (SH.clock m) (sh_hard r) = false
  | SH.A90 =>
      forall res, SH.cell m = Some res ->
                  isValidAt res (SH.clock m) (sh_soft r) = false
  | SH.L154 res | SH.A90s res =>
      forall rc, SH.cell m = Some rc -> moment rc <= moment res
  | _ => True
  end.

(** ** Further invariants of the on-demand strategy *)

(** Between the two stores of the tuple assignment of [result.produce]. *)
Definition od_mid (p : OD.pc) : bool :=
  match p with
  | OD.L312e _ => true
  | _ => false
  end.

Definition od_exclusive_else (p : OD.pc) : bool :=
  OD.exclusive p && negb (od_mid p).

(** [out] is what one of the first [n] calls of [produce] returned. *)
Definition od_produced (r : onDemand) (n : nat) (out : iface * error) : Prop :=
  exists k : nat, (k < n)%nat /\ out = od_produce r (od_ctx r) k.

(** Facts that hold for a goroutine at the given program points; the ones
    about the struct concern goroutines that hold the write lock. *)
Definition od_excl_good (r : onDemand) (m : OD.shared) (p : OD.pc) : Prop :=
  match p with
  | OD.L84 => OD.get r m = false
  | OD.L81 | OD.L313 | OD.L85 =>
      od_produced r (OD.calls m) (expand (OD.cell m))
  | OD.L312 k => (k < OD.calls m)%nat
  | OD.L312e e =>
      exists k : nat,
        (k < OD.calls m)%nat /\
        val (OD.cell m) = fst (od_produce r (od_ctx r) k) /\
        e = snd (od_produce r (od_ctx r) k)
  | OD.L78 ex out | OD.Done ex out =>
      ex <> OD.Ret74 -> od_produced r (OD.calls m) out
  | _ => True
  end.

(** Unless a goroutine is between the two stores, the struct holds either
    no moment or the pair of one call of [produce]. *)
Definition od_whole_inv (r : onDemand) (s : OD.state) : Prop :=
  (count od_mid (OD.pool s) = O ->
   moment (OD.cell (OD.mem s)) = 0 \/
   od_produced r (OD.calls (OD.mem s)) (expand (OD.cell (OD.mem s)))) /\
  Forall (od_excl_good r (OD.mem s)) (OD.pool s).

(** A goroutine of [updateAsync] that has not finished. *)
Definition sh_refreshing (g : SH.goroutine) : bool :=
  match SH.ip g with
  | SH.A90 | SH.A90r _ | SH.A90m _ | SH.A90s _ | SH.A92 | SH.A95 | SH.A96
  | SH.A93 => true
  | _ => false
  end.

(** ** States used as examples *)

(** Soft/hard: caller 0 fills the cell; 80 ms later caller 1 wins the
    compare-and-swap, starts the goroutine of [updateAsync] (goroutine 2,
    which does not run yet) and returns; 200 ms later caller 3 finds the
    result past its hard deadline, locks, loses the compare-and-swap and
    suspends in [Wait]. *)
Definition sh_schedule_parked : list SH.label :=
  SH.Call :: repeat (SH.Run 0) 12
  ++ SH.Tick (80 * time.Millisecond) :: SH.Call :: repeat (SH.Run 1) 5
  ++ SH.Tick (200 * time.Millisecond) :: SH.Call :: repeat (SH.Run 3) 8.

Definition sh_state_parked : SH.state_ :=
  Eval vm_compute in
    default (SH.init test_softHard test_epoch)
      (SH.exec test_softHard sh_schedule_parked (SH.init test_softHard test_epoch)).

(** The same run, continued until the goroutine of [updateAsync] is about
    to store its result, and the state after the store. *)
Definition sh_state_storing : SH.state_ :=
  Eval vm_compute in
    default (SH.init test_softHard test_epoch)
      (SH.exec test_softHard (repeat (SH.Run 2) 3) sh_state_parked).

Definition sh_state_stored : SH.state_ :=
  Eval vm_compute in
    default (SH.init test_softHard test_epoch)
      (SH.exec test_softHard [SH.Run 2] sh_state_storing).

(** Soft/hard: caller 1 has won the compare-and-swap of line 109 and is
    about to load the result again. *)
Definition sh_schedule_reload : list SH.label :=
  SH.Call :: repeat (SH.Run 0) 12
  ++ SH.Tick (80 * time.Millisecond) :: SH.Call :: repeat (SH.Run 1) 3.

Definition sh_state_reload : SH.state_ :=
  Eval vm_compute in
    default (SH.init test_softHard test_epoch)
      (SH.exec test_softHard sh_schedule_reload (SH.init test_softHard test_epoch)).

(** Soft/hard, the end of [sh_schedule_scenario]: every goroutine has
    finished. *)
Definition sh_state_rest : SH.state_ :=
  Eval vm_compute in
    default (SH.init test_softHard test_epoch)
      (SH.exec test_softHard sh_schedule_scenario (SH.init test_softHard test_epoch)).

(** On-demand: one caller about to call [produce] (line 84), the same
    caller about to store the moment (line 313) and the state after that
    store. *)
Definition od_schedule_calling : list OD.label :=
  OD.Call :: repeat (OD.Run 0) 5.

Definition od_state_calling : OD.state :=
  Eval vm_compute in
    default (OD.init test_onDemand test_epoch)
      (OD.exec test_onDemand od_schedule_calling (OD.init test_onDemand test_epoch)).

Definition od_state_stamping : OD.state :=
  Eval vm_compute in
    default (OD.init test_onDemand test_epoch)
      (OD.exec test_onDemand (repeat (OD.Run 0) 3) od_state_calling).

Definition od_state_stamped : OD.state :=
  Eval vm_compute in
    default (OD.init test_onDemand test_epoch)
      (OD.exec test_onDemand [OD.Run 0] od_state_stamping).

(** On-demand, the end of [od_schedule_scenario]: every call has
    returned. *)
Definition od_state_rest : OD.state :=
  Eval vm_compute in
    default (OD.init test_onDemand test_epoch)
      (OD.exec test_onDemand od_schedule_scenario (OD.init test_onDemand test_epoch)).
(** * Properties *)

(** ** Validity of a result *)

Lemma isValidAt_true (r : result) (m : time.Time) (pp : Periods) :
  isValidAt r m pp = true <-> moment r <> 0 /\ m < moment r + Period pp (err r).
Proof.
  unfold isValidAt, time.IsZero, time.After, time.Add.
  rewrite andb_true_iff, negb_true_iff, Z.eqb_neq, Z.ltb_lt. tauto.
Qed.

Lemma isValidAt_false (r : result) (m : time.Time) (pp : Periods) :
  isValidAt r m pp = false <-> moment r = 0 \/ moment r + Period pp (err r) <= m.
Proof.
  rewrite <- not_true_iff_false, isValidAt_true. lia.
Qed.

(** A result that is valid at some time was valid at every earlier time. *)
Lemma isValidAt_earlier (r : result) (m1 m2 : time.Time) (pp : Periods) :
  m1 <= m2 -> isValidAt r m2 pp = true -> isValidAt r m1 pp = true.
Proof. rewrite !isValidAt_true. lia. Qed.

Lemma Period_le (soft hard : Periods) (e : error) :
  Default soft <= Default hard -> Error soft <= Error hard ->
  Period soft e <= Period hard e.
Proof. destruct e; simpl; lia. Qed.

(** Within the soft period is within the hard period. *)
Lemma isValidAt_soft_hard (r : result) (m : time.Time) (soft hard : Periods) :
  Default soft <= Default hard -> Error soft <= Error hard ->
  isValidAt r m soft = true -> isValidAt r m hard = true.
Proof.
  intros Hd He. rewrite !isValidAt_true.
  pose proof (Period_le soft hard (err r) Hd He). lia.
Qed.



(** ** Construction *)

Lemma Validate_None (pp : Periods) :
  Validate pp = None <-> 0 <= Default pp /\ 0 <= Error pp.
Proof.
  unfold Validate.
  destruct (Z.ltb_spec (Default pp) 0); [split; [discriminate | lia] |].
  destruct (Z.ltb_spec (Error pp) 0); [split; [discriminate | lia] |].
  split; auto.
Qed.

Lemma Validate_Some (pp : Periods) (e : error_value) :
  Validate pp = Some e ->
  is_InvalidPeriod (Some e) /\ (Default pp < 0 \/ Error pp < 0).
Proof.
  unfold Validate.
  destruct (Z.ltb_spec (Default pp) 0).
  - intros [= <-]. simpl. auto.
  - destruct (Z.ltb_spec (Error pp) 0); [| discriminate].
    intros [= <-]. simpl. auto.
Qed.

(** What a successful [SoftHard] guarantees about the instance. *)
Lemma SoftHard_ok ctx produce soft hard (r : softHard) :
  fst (SoftHard ctx produce soft hard) = Some r ->
  sh_soft r = soft /\ sh_hard r = hard /\
  sh_result r = None /\ sh_lock r = false /\ sh_state r = 0%N /\
  0 <= Default soft /\ 0 <= Error soft /\
  Default soft <= Default hard /\ Error soft <= Error hard.
Proof.
  unfold SoftHard. destruct ctx; [| discriminate]. destruct produce; [| discriminate].
  destruct (Validate soft) eqn:HV; [discriminate |].
  apply Validate_None in HV.
  destruct (Z.ltb_spec (Default hard) (Default soft)); [discriminate |].
  destruct (Z.ltb_spec (Error hard) (Error soft)); [discriminate |].
  simpl. intros [= <-]. simpl. intuition lia.
Qed.

Lemma OnDemand_ok ctx produce pp (r : onDemand) :
  fst (OnDemand ctx produce pp) = Some r ->
  od_periods r = pp /\ od_result r = zero_result /\
  od_lock r = sync.RWMutex_zero /\ 0 <= Default pp /\ 0 <= Error pp.
Proof.
  unfold OnDemand. destruct ctx; [| discriminate]. destruct produce; [| discriminate].
  destruct (Validate pp) eqn:HV; [discriminate |].
  apply Validate_None in HV.
  simpl. intros [= <-]. simpl. intuition lia.
Qed.

(** ** Counting goroutines *)

Lemma count_app {A} (f : A -> bool) (l l' : list A) :
  count f (l ++ l') = (count f l + count f l')%nat.
Proof. induction l as [| x l IH]; simpl; [reflexivity | rewrite IH; lia]. Qed.

Lemma count_insert {A} (f : A -> bool) (l : list A) (i : nat) (x y : A) :
  l !! i = Some x ->
  (count f (<[i := y]> l) + b2n (f x) = count f l + b2n (f y))%nat.
Proof.
  revert i. induction l as [| z l IH]; intros [| i] H; simpl in *; try discriminate.
  - injection H as ->. unfold b2n. destruct (f x), (f y); lia.
  - specialize (IH i H). lia.
Qed.

Lemma count_fmap {A} (f : A -> bool) (g : A -> A) (l : list A) :
  (forall x, f (g x) = f x) -> count f (g <$> l) = count f l.
Proof.
  intros Hg. induction l as [| x l IH]; simpl; [reflexivity |].
  rewrite Hg. f_equal. exact IH.
Qed.

Lemma count_le {A} (f g : A -> bool) (l : list A) :
  (forall x, f x = true -> g x = true) -> (count f l <= count g l)%nat.
Proof.
  intros Hfg. induction l as [| x l IH]; simpl; [lia |].
  destruct (f x) eqn:Hf; [rewrite (Hfg x Hf) |]; destruct (g x); lia.
Qed.

Lemma count_lookup {A} (f : A -> bool) (l : list A) (i : nat) (x : A) :
  l !! i = Some x -> f x = true -> (1 <= count f l)%nat.
Proof.
  revert i. induction l as [| z l IH]; intros [| i] H Hf; simpl in *; try discriminate.
  - injection H as ->. rewrite Hf. lia.
  - specialize (IH i H Hf). lia.
Qed.

(** ** The on-demand strategy: invariant *)

Lemma od_inv_init (r : onDemand) (t0 : time.Time) :
  od_built r -> 0 < t0 -> od_inv (OD.init r t0).
Proof.
  intros (ctx & produce & pp & Hr) Ht.
  apply OnDemand_ok in Hr as (_ & Hres & Hlock & _).
  unfold od_inv, OD.init. simpl. rewrite Hres, Hlock. simpl.
  repeat split; auto; lia.
Qed.

Lemma od_inv_step (r : onDemand) (l : OD.label) (s s' : OD.state) :
  od_inv s -> OD.step r l s = Some s' -> od_inv s'.
Proof.
  intros (Hx & Hr & Hrw & Hm & Hp & Hn) Hstep.
  destruct s as [m pool]. simpl in *.
  destruct l as [d | | i]; simpl in Hstep.
  - destruct (Z.leb_spec 0 d); [| discriminate].
    injection Hstep as <-. unfold od_inv. simpl. repeat split; auto; lia.
  - injection Hstep as <-. unfold od_inv. simpl.
    rewrite !count_app. simpl. repeat split; auto; lia.
  - destruct (pool !! i) as [p |] eqn:Hi; [| discriminate].
    destruct (OD.tstep r m p) as [[m' p'] |] eqn:Ht; [| discriminate].
    injection Hstep as <-. unfold od_inv. simpl.
    pose proof (count_insert OD.exclusive pool i p p' Hi) as Cx.
    pose proof (count_insert OD.reading pool i p p' Hi) as Cr.
    pose proof (count_insert od_invoked pool i p p' Hi) as Cn.
    destruct m as [clk n c [rd wr]]. simpl in *.
    destruct p; simpl in Ht;
      repeat match type of Ht with
             | context [sync.RLock ?l] => unfold sync.RLock in Ht; simpl in Ht
             | context [sync.Lock ?l] => unfold sync.Lock in Ht; simpl in Ht
             | context [if ?b then _ else _] => destruct b eqn:?
             | context [match ?n with O => _ | S _ => _ end] => destruct n eqn:?
             end;
      try discriminate;
      injection Ht as <- <-; try destruct ex; simpl in *; unfold b2n in *;
      destruct wr; simpl in *;
      repeat split; try discriminate; try lia;
      try (intros; first [lia | discriminate | auto]).
Qed.

Lemma od_reachable_inv (r : onDemand) (s : OD.state) :
  od_built r -> OD.reachable r s -> od_inv s.
Proof.
  intros Hb Hs. induction Hs as [t0 Ht | s l s' _ IH Hstep].
  - apply od_inv_init; assumption.
  - eapply od_inv_step; eassumption.
Qed.

Lemma od_exec_reachable (r : onDemand) (ls : list OD.label) (s s' : OD.state) :
  OD.reachable r s -> OD.exec r ls s = Some s' -> OD.reachable r s'.
Proof.
  revert s. induction ls as [| l ls IH]; simpl; intros s Hs He.
  - injection He as <-. exact Hs.
  - destruct (OD.step r l s) as [s1 |] eqn:H1; [| discriminate].
    eapply IH; [| exact He]. eapply OD.reach_step; eassumption.
Qed.

(** ** The soft/hard strategy: the flag *)

(** Case analysis on one statement of a goroutine: every branch of
    [SH.tstep] becomes a goal in which the step is an equation between
    constructors. *)
Ltac sh_tstep_cases Ht :=
  simpl in Ht; unfold isValidNow in Ht;
  repeat match type of Ht with
         | context [match ?x with Some _ => _ | None => _ end] => destruct x eqn:?
         | context [if ?b then _ else _] => destruct b eqn:?
         end;
  try discriminate.

Lemma sh_owner_wake (g : SH.goroutine) : sh_owner (SH.wake g) = sh_owner g.
Proof. unfold SH.wake, sh_owner. destruct g as [b sl []]; reflexivity. Qed.

Lemma sh_invoked_wake (g : SH.goroutine) : sh_invoked (SH.wake g) = sh_invoked g.
Proof. unfold SH.wake, sh_invoked. destruct g as [b sl []]; reflexivity. Qed.

(** The pool after a statement with effect [eff], counted. *)
Lemma count_after_effect (f : SH.goroutine -> bool) (eff : SH.effect)
    (pool : list SH.goroutine) (a : SH.goroutine) :
  (forall g, f (SH.wake g) = f g) ->
  count f match eff with
          | SH.Silent => pool
          | SH.Go => pool ++ [a]
          | SH.Broadcast => SH.wake <$> pool
          end
  = (count f pool + match eff with SH.Go => b2n (f a) | _ => 0 end)%nat.
Proof.
  intros Hw. destruct eff.
  - lia.
  - rewrite count_app. simpl. unfold b2n. destruct (f a); lia.
  - rewrite count_fmap by exact Hw. lia.
Qed.

Lemma sh_flag_inv_init (r : softHard) (t0 : time.Time) :
  sh_built r -> sh_flag_inv (SH.init r t0).
Proof.
  intros (ctx & produce & soft & hard & Hr).
  apply SoftHard_ok in Hr as (_ & _ & _ & _ & Hst & _).
  unfold sh_flag_inv, SH.init. simpl. rewrite Hst. simpl.
  repeat split; [lia].
Qed.

Lemma sh_flag_inv_step (r : softHard) (l : SH.label) (s s' : SH.state_) :
  sh_flag_inv s -> SH.step r l s = Some s' -> sh_flag_inv s'.
Proof.
  intros (Hle & Hc & Hn) Hstep.
  destruct s as [m pool]. simpl in *.
  destruct l as [d | | i]; simpl in Hstep.
  - destruct (Z.leb_spec 0 d); [| discriminate].
    injection Hstep as <-. repeat split; simpl; assumption.
  - injection Hstep as <-. repeat split; simpl; [assumption | |];
      rewrite count_app; simpl; lia.
  - destruct (pool !! i) as [g |] eqn:Hi; [| discriminate].
    destruct (SH.tstep r m (SH.ip g)) as [[[m' p'] eff] |] eqn:Ht; [| discriminate].
    injection Hstep as <-. unfold sh_flag_inv. simpl.
    set (g' := {| SH.born := SH.born g;
                  SH.slow := SH.enter (SH.clock m) (SH.ip g) p' (SH.slow g);
                  SH.ip := p' |}).
    assert (C : (count sh_owner (<[i:=g']> pool) + b2n (SH.owner (SH.ip g))
                 = count sh_owner pool + b2n (SH.owner p'))%nat)
      by exact (count_insert sh_owner pool i g g' Hi).
    assert (D : (count sh_invoked (<[i:=g']> pool) + b2n (sh_invoked g)
                 = count sh_invoked pool + b2n (sh_invoked g'))%nat)
      by exact (count_insert sh_invoked pool i g g' Hi).
    rewrite (count_after_effect sh_owner) by apply sh_owner_wake.
    rewrite (count_after_effect sh_invoked) by apply sh_invoked_wake.
    remember (count sh_owner (<[i:=g']> pool)) as j eqn:Ej.
    remember (count sh_invoked (<[i:=g']> pool)) as k eqn:Ek.
    clear Ej Ek. rewrite <- Hn in D. rewrite Hc in C.
    unfold sh_invoked in D. subst g'. simpl in D.
    destruct m as [clk n c st mtx]. simpl in *.
    destruct (SH.ip g); sh_tstep_cases Ht;
      injection Ht as <- <- <-; try destruct ex; simpl in *; unfold b2n in *;
      repeat match goal with
             | H : (_ =? _)%N = true |- _ => apply N.eqb_eq in H
             | H : (_ =? _)%N = false |- _ => apply N.eqb_neq in H
             end;
      repeat split; lia.
Qed.

Lemma sh_reachable_flag (r : softHard) (s : SH.state_) :
  sh_built r -> SH.reachable r s -> sh_flag_inv s.
Proof.
  intros Hb Hs. induction Hs as [t0 Ht | s l s' _ IH Hstep].
  - apply sh_flag_inv_init; assumption.
  - eapply sh_flag_inv_step; eassumption.
Qed.

Lemma sh_exec_reachable (r : softHard) (ls : list SH.label) (s s' : SH.state_) :
  SH.reachable r s -> SH.exec r ls s = Some s' -> SH.reachable r s'.
Proof.
  revert s. induction ls as [| l ls IH]; simpl; intros s Hs He.
  - injection He as <-. exact Hs.
  - destruct (SH.step r l s) as [s1 |] eqn:H1; [| discriminate].
    eapply IH; [| exact He]. eapply SH.reach_step; eassumption.
Qed.

(** ** The soft/hard strategy: what a caller holds past line 125 *)

Lemma sh_tstep_clock (r : softHard) (m m' : SH.shared) (p p' : SH.pc) eff :
  SH.tstep r m p = Some (m', p', eff) -> SH.clock m' = SH.clock m.
Proof.
  intros Ht. destruct p; sh_tstep_cases Ht; injection Ht as <- <- <-; reflexivity.
Qed.

Lemma sh_good_later (r : softHard) (clk clk' : time.Time) (g : SH.goroutine) :
  clk <= clk' -> sh_good r clk g -> sh_good r clk' g.
Proof.
  intros Hle [Hb H]. split; [lia |].
  destruct (phase_of (SH.ip g)), (SH.slow g) as [[lo found] |]; auto;
    destruct H as (? & ? & ? & ?); repeat split; auto; lia.
Qed.

Lemma sh_good_wake (r : softHard) (clk : time.Time) (g : SH.goroutine) :
  sh_good r clk g -> sh_good r clk (SH.wake g).
Proof.
  unfold SH.wake, sh_good. destruct g as [b sl p]. simpl.
  destruct p; simpl; auto.
Qed.

Lemma sh_good_step (r : softHard) (m m' : SH.shared) (g : SH.goroutine)
    (p' : SH.pc) eff :
  sh_built r ->
  sh_good r (SH.clock m) g ->
  SH.tstep r m (SH.ip g) = Some (m', p', eff) ->
  sh_good r (SH.clock m)
    {| SH.born := SH.born g;
       SH.slow := SH.enter (SH.clock m) (SH.ip g) p' (SH.slow g);
       SH.ip := p' |}.
Proof.
  intros (ctx & produce & soft & hard & Hr) [Hb H] Ht.
  apply SoftHard_ok in Hr as (Hs & Hh & _ & _ & _ & _ & _ & Hd & He).
  rewrite <- Hs, <- Hh in Hd, He.
  split; [exact Hb |]. simpl.
  destruct g as [b sl p]. simpl in *.
  destruct p; sh_tstep_cases Ht; injection Ht as <- <- <-; simpl in *; auto;
    try (repeat split; solve [lia | intros ? [= <-]; assumption | discriminate]);
    try (destruct ex; simpl in *; exact H);
    destruct sl as [[lo found] |]; try contradiction;
    destruct H as (H1 & H2 & H3 & H4); repeat split; auto; try lia.
  all: try (eapply isValidAt_earlier; [exact H2 |]; try assumption;
            eapply isValidAt_soft_hard; eassumption).
Qed.

Lemma sh_good_init_pool (r : softHard) (t0 : time.Time) :
  Forall (sh_good r (SH.clock (SH.mem (SH.init r t0)))) (SH.pool (SH.init r t0)).
Proof. constructor. Qed.

Lemma sh_good_inv_step (r : softHard) (l : SH.label) (s s' : SH.state_) :
  sh_built r ->
  Forall (sh_good r (SH.clock (SH.mem s))) (SH.pool s) ->
  SH.step r l s = Some s' ->
  Forall (sh_good r (SH.clock (SH.mem s'))) (SH.pool s').
Proof.
  intros Hb HF Hstep. destruct s as [m pool]. simpl in *.
  assert (Hfresh : forall p, phase_of p = Fast ->
                             sh_good r (SH.clock m) (SH.fresh (SH.clock m) p)).
  { intros p Hp. split; simpl; [lia | rewrite Hp; exact I]. }
  destruct l as [d | | i]; simpl in Hstep.
  - destruct (Z.leb_spec 0 d); [| discriminate].
    injection Hstep as <-. simpl.
    eapply Forall_impl; [exact HF |].
    intros g. apply sh_good_later. lia.
  - injection Hstep as <-. simpl.
    apply Forall_app. split; [exact HF |].
    constructor; [| constructor]. apply Hfresh. reflexivity.
  - destruct (pool !! i) as [g |] eqn:Hi; [| discriminate].
    destruct (SH.tstep r m (SH.ip g)) as [[[m' p'] eff] |] eqn:Ht; [| discriminate].
    injection Hstep as <-. simpl.
    rewrite (sh_tstep_clock _ _ _ _ _ _ Ht).
    pose proof (Forall_lookup_1 _ _ _ _ HF Hi) as Hg.
    pose proof (sh_good_step r m m' g p' eff Hb Hg Ht) as Hg'.
    pose proof (Forall_insert _ _ i _ HF Hg') as HF'.
    destruct eff.
    + exact HF'.
    + apply Forall_app. split; [exact HF' |].
      constructor; [| constructor]. apply Hfresh. reflexivity.
    + apply Forall_fmap. eapply Forall_impl; [exact HF' |].
      intros g0. apply sh_good_wake.
Qed.

Lemma sh_reachable_good (r : softHard) (s : SH.state_) :
  sh_built r -> SH.reachable r s ->
  Forall (sh_good r (SH.clock (SH.mem s))) (SH.pool s).
Proof.
  intros Hb Hs. induction Hs as [t0 Ht | s l s' _ IH Hstep].
  - apply sh_good_init_pool.
  - eapply sh_good_inv_step; eassumption.
Qed.

(** ** Zero periods *)






(** ** Undisturbed runs of the on-demand [Get] *)

Arguments isValidAt : simpl never.

(** Evaluation of a run, leaving the tests of validity and the clock
    arithmetic as they stand. *)
Ltac run_od :=
  cbn -[isValidAt Z.add]; unfold OD.get, isValidNow; cbn -[isValidAt Z.add].
Ltac run_sh := cbn -[isValidAt Z.add]; unfold isValidNow.

Lemma isValidAt_later_false (r : result) (m1 m2 : time.Time) (pp : Periods) :
  m1 <= m2 -> isValidAt r m1 pp = false -> isValidAt r m2 pp = false.
Proof. rewrite !isValidAt_false. lia. Qed.

(** Lines 69 to 74: the result is valid when tested under the read lock. *)
Lemma od_run_fast_hit (r : onDemand) (m : OD.shared) (d1 d2 d3 d4 : time.Duration) :
  sync.writer (OD.lock m) = false ->
  isValidAt (OD.cell m) (OD.clock m + d1 + d2) (od_periods r) = true ->
  OD.solo r [d1; d2; d3; d4] m OD.L69
  = (OD.set_clock m (OD.clock m + d1 + d2 + d3 + d4),
     OD.Done OD.Ret74 (expand (OD.cell m))).
Proof.
  intros Hw Hv. destruct m as [clk n c [rd wr]]. simpl in *. subst wr.
  run_od. rewrite Hv. run_od. reflexivity.
Qed.

(** Lines 69 to 77: it is not; the caller is left at line 77. *)
Lemma od_run_fast_miss (r : onDemand) (m : OD.shared) (d1 d2 d3 : time.Duration) :
  sync.writer (OD.lock m) = false ->
  isValidAt (OD.cell m) (OD.clock m + d1 + d2) (od_periods r) = false ->
  OD.solo r [d1; d2; d3] m OD.L69
  = (OD.set_clock m (OD.clock m + d1 + d2 + d3), OD.L77).
Proof.
  intros Hw Hv. destruct m as [clk n c [rd wr]]. simpl in *. subst wr.
  run_od. rewrite Hv. run_od. reflexivity.
Qed.

(** Lines 77 to 81: valid when tested again under the write lock. *)
Lemma od_run_slow_hit (r : onDemand) (m : OD.shared) (d1 d2 d3 d4 : time.Duration) :
  OD.lock m = sync.RWMutex_zero ->
  isValidAt (OD.cell m) (OD.clock m + d1 + d2) (od_periods r) = true ->
  OD.solo r [d1; d2; d3; d4] m OD.L77
  = (OD.set_clock m (OD.clock m + d1 + d2 + d3 + d4),
     OD.Done OD.Ret81 (expand (OD.cell m))).
Proof.
  intros Hl Hv. destruct m as [clk n c l]. simpl in *. subst l.
  run_od. rewrite Hv. run_od. reflexivity.
Qed.

(** Lines 84 and 85, from the call of [produce] to the return. *)
Lemma od_run_produce (r : onDemand) (m : OD.shared)
    (d1 d2 d3 d4 d5 d6 : time.Duration) :
  let out := od_produce r (od_ctx r) (OD.calls m) in
  OD.solo r [d1; d2; d3; d4; d5; d6] m OD.L84
  = ({| OD.clock := OD.clock m + d1 + d2 + d3 + d4 + d5 + d6;
        OD.calls := S (OD.calls m);
        OD.cell := {| val := fst out; err := snd out;
                      moment := OD.clock m + d1 + d2 + d3 + d4 |};
        OD.lock := sync.Unlock (OD.lock m) |},
     OD.Done OD.Ret85 out).
Proof.
  destruct m as [clk n c l]. run_od.
  destruct (od_produce r (od_ctx r) n). reflexivity.
Qed.

(** Lines 77 to 85: not valid under the write lock either. *)
Lemma od_run_slow_produce (r : onDemand) (m : OD.shared)
    (d1 d2 d3 d4 d5 d6 d7 d8 : time.Duration) :
  let out := od_produce r (od_ctx r) (OD.calls m) in
  OD.lock m = sync.RWMutex_zero ->
  isValidAt (OD.cell m) (OD.clock m + d1 + d2) (od_periods r) = false ->
  OD.solo r [d1; d2; d3; d4; d5; d6; d7; d8] m OD.L77
  = ({| OD.clock := OD.clock m + d1 + d2 + d3 + d4 + d5 + d6 + d7 + d8;
        OD.calls := S (OD.calls m);
        OD.cell := {| val := fst out; err := snd out;
                      moment := OD.clock m + d1 + d2 + d3 + d4 + d5 + d6 |};
        OD.lock := sync.RWMutex_zero |},
     OD.Done OD.Ret85 out).
Proof.
  intros out Hl Hv. subst out. destruct m as [clk n c l]. simpl in *. subst l.
  run_od. rewrite Hv. run_od.
  destruct (od_produce r (od_ctx r) n). reflexivity.
Qed.

(** Who holds which lock. *)
Lemma od_lock_discipline (r : onDemand) (s : OD.state) (i : nat) (p : OD.pc) :
  od_built r -> OD.reachable r s -> OD.pool s !! i = Some p ->
  (OD.reading p = true ->
   sync.writer (OD.lock (OD.mem s)) = false /\
   (1 <= sync.readers (OD.lock (OD.mem s)))%nat) /\
  (OD.exclusive p = true ->
   sync.writer (OD.lock (OD.mem s)) = true /\
   sync.readers (OD.lock (OD.mem s)) = O /\
   count OD.exclusive (OD.pool s) = 1%nat).
Proof.
  intros Hb Hs Hi.
  destruct (od_reachable_inv r s Hb Hs) as (Hx & Hr & Hrw & _).
  split; intros Hp.
  - pose proof (count_lookup _ _ _ _ Hi Hp) as H1. rewrite Hr in H1.
    split; [| exact H1].
    destruct (sync.writer _); [specialize (Hrw eq_refl); lia | reflexivity].
  - pose proof (count_lookup _ _ _ _ Hi Hp) as H1. rewrite Hx in *.
    destruct (sync.writer _); simpl in *; [auto | lia].
Qed.

(** ** Undisturbed runs of the soft/hard [Get] *)

(** Lines 153 to 159, from the call of [produce] to the return. *)
Lemma sh_run_produce (r : softHard) (m : SH.shared)
    (d1 d2 d3 d4 d5 d6 d7 : time.Duration) :
  let res := produceResult (sh_produce r (sh_ctx r) (SH.calls m))
                         (SH.clock m + d1 + d2 + d3) in
  SH.solo r [d1; d2; d3; d4; d5; d6; d7] m SH.L153
  = ({| SH.clock := SH.clock m + d1 + d2 + d3 + d4 + d5 + d6 + d7;
        SH.calls := S (SH.calls m);
        SH.cell := Some res;
        SH.state := 0%N;
        SH.mu := false |},
     SH.Done SH.Ret159 res, [SH.Broadcast]).
Proof. destruct m as [clk n c st mtx]. reflexivity. Qed.

(** The goroutine of [updateAsync], lines 90 to 97. *)
Lemma sh_run_async (r : softHard) (m : SH.shared)
    (d1 d2 d3 d4 d5 d6 d7 d8 : time.Duration) :
  let res := produceResult (sh_produce r (sh_ctx r) (SH.calls m))
                         (SH.clock m + d1 + d2 + d3) in
  SH.mu m = false ->
  SH.solo r [d1; d2; d3; d4; d5; d6; d7; d8] m SH.A90
  = ({| SH.clock := SH.clock m + d1 + d2 + d3 + d4 + d5 + d6 + d7 + d8;
        SH.calls := S (SH.calls m);
        SH.cell := Some res;
        SH.state := 0%N;
        SH.mu := false |},
     SH.AExit, [SH.Broadcast]).
Proof.
  intros res Hmu. subst res. destruct m as [clk n c st mtx]. simpl in *. subst mtx.
  reflexivity.
Qed.

(** Lines 110 to 121 when the reloaded result is within its soft period. *)
Lemma sh_run_recheck_fresh (r : softHard) (m : SH.shared) (now : time.Time)
    (res : result) (d1 d2 d3 d4 d5 : time.Duration) :
  SH.cell m = Some res -> SH.mu m = false ->
  isValidAt res now (sh_soft r) = true ->
  SH.solo r [d1; d2; d3; d4; d5] m (SH.L110 now)
  = ({| SH.clock := SH.clock m + d1 + d2 + d3 + d4 + d5;
        SH.calls := SH.calls m;
        SH.cell := Some res;
        SH.state := 0%N;
        SH.mu := false |},
     SH.Done SH.Ret121 res, [SH.Broadcast]).
Proof.
  intros Hc Hmu Hv. destruct m as [clk n c st mtx]. simpl in *. subst c mtx.
  run_sh. rewrite Hv. reflexivity.
Qed.

(** Lines 110 to 121 when it is not. *)
Lemma sh_run_recheck_stale (r : softHard) (m : SH.shared) (now : time.Time)
    (res : result) (d1 d2 : time.Duration) :
  SH.cell m = Some res ->
  isValidAt res now (sh_soft r) = false ->
  SH.solo r [d1; d2] m (SH.L110 now)
  = (SH.set_clock m (SH.clock m + d1 + d2), SH.Done SH.Ret121 res, [SH.Go]).
Proof.
  intros Hc Hv. destruct m as [clk n c st mtx]. simpl in *. subst c.
  run_sh. rewrite Hv. reflexivity.
Qed.

(** Validity of a freshly produced result. *)
Lemma isValidAt_produced (out : iface * error) (t now : time.Time) (pp : Periods) :
  0 < t ->
  (isValidAt (produceResult out t) now pp = true <-> now < t + Period pp (snd out)).
Proof. intros Ht. rewrite isValidAt_true. simpl. lia. Qed.

(** What the [go] statement of line 117 does to the pool. *)
Lemma sh_step_go (r : softHard) (s : SH.state_) (i : nat) (g : SH.goroutine)
    (res : result) :
  SH.pool s !! i = Some g -> SH.ip g = SH.L117 res ->
  SH.step r (SH.Run i) s
  = Some {| SH.mem := SH.mem s;
            SH.pool := <[i := {| SH.born := SH.born g; SH.slow := SH.slow g;
                                 SH.ip := SH.Done SH.Ret121 res |}]> (SH.pool s)
                       ++ [SH.fresh (SH.clock (SH.mem s)) SH.A90] |}.
Proof. intros Hi Hip. simpl. rewrite Hi, Hip. reflexivity. Qed.

(** ** Undisturbed runs are runs of the transition systems *)

Lemma od_alone_solo (r : onDemand) (i : nat) (ds : list time.Duration)
    (s s' : OD.state) (p : OD.pc) :
  OD.pool s !! i = Some p ->
  OD.exec r (od_alone i ds) s = Some s' ->
  exists p', OD.pool s' !! i = Some p' /\
             OD.solo r ds (OD.mem s) p = (OD.mem s', p').
Proof.
  revert s p. induction ds as [| d ds IH]; intros s p Hi He.
  - injection He as <-. exists p. split; [exact Hi | reflexivity].
  - cbn [od_alone flat_map app OD.exec] in He.
    destruct (OD.step r (OD.Tick d) s) as [s1 |] eqn:H1; [| discriminate].
    destruct (OD.step r (OD.Run i) s1) as [s2 |] eqn:H2; [| discriminate].
    simpl in H1. destruct (0 <=? d); [| discriminate]. injection H1 as <-.
    simpl in H2. rewrite Hi in H2.
    destruct (OD.tstep r (OD.set_clock (OD.mem s) (OD.clock (OD.mem s) + d)) p)
      as [[m2 p2] |] eqn:Ht; [| discriminate].
    injection H2 as <-.
    destruct (IH {| OD.mem := m2; OD.pool := <[i:=p2]> (OD.pool s) |} p2)
      as (p' & Hp' & Hsolo).
    + simpl. apply list_lookup_insert_eq. eapply lookup_lt_Some. exact Hi.
    + exact He.
    + exists p'. split; [exact Hp' |]. cbn [OD.solo]. rewrite Ht. exact Hsolo.
Qed.

Lemma sh_lookup_after_effect (eff : SH.effect) (pool : list SH.goroutine)
    (a g : SH.goroutine) (i : nat) :
  pool !! i = Some g ->
  match eff with
  | SH.Silent => pool
  | SH.Go => pool ++ [a]
  | SH.Broadcast => SH.wake <$> pool
  end !! i = Some (match eff with SH.Broadcast => SH.wake g | _ => g end).
Proof.
  intros Hi. destruct eff.
  - exact Hi.
  - apply lookup_app_l_Some. exact Hi.
  - rewrite list_lookup_fmap, Hi. reflexivity.
Qed.

Lemma sh_alone_solo (r : softHard) (i : nat) (ds : list time.Duration)
    (s s' : SH.state_) (g : SH.goroutine) :
  SH.pool s !! i = Some g ->
  SH.exec r (sh_alone i ds) s = Some s' ->
  exists g' effs, SH.pool s' !! i = Some g' /\
                  SH.solo r ds (SH.mem s) (SH.ip g) = (SH.mem s', SH.ip g', effs).
Proof.
  revert s g. induction ds as [| d ds IH]; intros s g Hi He.
  - injection He as <-. exists g, []. split; [exact Hi | reflexivity].
  - cbn [sh_alone flat_map app SH.exec] in He.
    destruct (SH.step r (SH.Tick d) s) as [s1 |] eqn:H1; [| discriminate].
    destruct (SH.step r (SH.Run i) s1) as [s2 |] eqn:H2; [| discriminate].
    simpl in H1. destruct (0 <=? d); [| discriminate]. injection H1 as <-.
    simpl in H2. rewrite Hi in H2.
    destruct (SH.tstep r (SH.set_clock (SH.mem s) (SH.clock (SH.mem s) + d))
                (SH.ip g)) as [[[m2 p2] eff] |] eqn:Ht; [| discriminate].
    injection H2 as <-.
    set (g2 := {| SH.born := SH.born g;
                  SH.slow := SH.enter (SH.clock (SH.mem s) + d) (SH.ip g) p2
                               (SH.slow g);
                  SH.ip := p2 |}) in *.
    assert (Hip : SH.ip match eff with SH.Broadcast => SH.wake g2 | _ => g2 end
                  = p2).
    { subst g2. clear IH He.
      destruct (SH.ip g); sh_tstep_cases Ht; injection Ht as <- <- <-;
        reflexivity. }
    match type of He with
    | SH.exec _ _ ?s2 = _ =>
        destruct (IH s2 (match eff with SH.Broadcast => SH.wake g2 | _ => g2 end))
          as (g' & effs & Hg' & Hsolo)
    end.
    + simpl. apply sh_lookup_after_effect.
      apply list_lookup_insert_eq. eapply lookup_lt_Some. exact Hi.
    + exact He.
    + exists g'. eexists. split; [exact Hg' |].
      cbn [SH.solo]. rewrite Ht.
      rewrite Hip in Hsolo. simpl in Hsolo. rewrite Hsolo. reflexivity.
Qed.

(** ** The scenarios of the tests *)

(** On-demand with periods (75 ms, 100 ms): [Get] at 0 ms produces 0; at
    70 ms it returns the cached 0; at 80 ms it produces error "0"; at 170 ms
    it returns the cached error; at 190 ms it produces 1.  Three calls of
    [produce] in all. *)
Example od_scenario :
  exists s,
    OD.exec test_onDemand od_schedule_scenario (OD.init test_onDemand test_epoch)
    = Some s /\
    OD.pool s = [OD.Done OD.Ret85 (Some 0, None);
                 OD.Done OD.Ret74 (Some 0, None);
                 OD.Done OD.Ret85 (None, Some (ErrProducer "0"));
                 OD.Done OD.Ret74 (None, Some (ErrProducer "0"));
                 OD.Done OD.Ret85 (Some 1, None)] /\
    OD.calls (OD.mem s) = 3%nat.
Proof. eexists. split; [vm_compute; reflexivity | split; reflexivity]. Qed.

(** Soft/hard with soft (75 ms, 100 ms) and hard (150 ms, 200 ms): the
    calls at 80 ms and 81 ms both return the stale 0 at once, and one
    refresh is made. *)
Example sh_scenario :
  exists s,
    SH.exec test_softHard sh_schedule_scenario (SH.init test_softHard test_epoch)
    = Some s /\
    SH.ip <$> SH.pool s
    = [SH.Done SH.Ret159 first_result;
       SH.Done SH.Ret121 first_result;
       SH.AExit;
       SH.Done SH.Ret121 first_result] /\
    SH.calls (SH.mem s) = 2%nat /\
    SH.cell (SH.mem s)
    = Some {| val := None; err := Some (ErrProducer "0");
              moment := test_epoch + 81 * time.Millisecond |}.
Proof. eexists. split; [vm_compute; reflexivity | repeat split]. Qed.

(** * The claims *)

Lemma od_built_test : od_built test_onDemand.
Proof.
  exists (Some Background), (Some test_produce), (New defaultPeriod errorPeriod).
  reflexivity.
Qed.

Lemma sh_built_test : sh_built test_softHard.
Proof.
  exists (Some Background), (Some test_produce),
    (New defaultPeriod errorPeriod), (New (defaultPeriod * 2) (errorPeriod * 2)).
  reflexivity.
Qed.

Lemma od_reachable_exec (r : onDemand) (t0 : time.Time) (ls : list OD.label)
    (s : OD.state) :
  0 < t0 -> OD.exec r ls (OD.init r t0) = Some s -> OD.reachable r s.
Proof. intros Ht. apply od_exec_reachable. constructor. exact Ht. Qed.

Lemma sh_reachable_exec (r : softHard) (t0 : time.Time) (ls : list SH.label)
    (s : SH.state_) :
  0 < t0 -> SH.exec r ls (SH.init r t0) = Some s -> SH.reachable r s.
Proof. intros Ht. apply sh_exec_reachable. constructor. exact Ht. Qed.

Lemma producing_exclusive (p : OD.pc) :
  OD.producing p = true -> OD.exclusive p = true.
Proof. destruct p; simpl; congruence. Qed.

Lemma producing_owner (g : SH.goroutine) :
  sh_producing g = true -> sh_owner g = true.
Proof. unfold sh_producing, sh_owner. destruct (SH.ip g); simpl; congruence. Qed.

Lemma od_producing_le_1 (r : onDemand) (s : OD.state) :
  od_built r -> OD.reachable r s -> (count OD.producing (OD.pool s) <= 1)%nat.
Proof.
  intros Hb Hs.
  destruct (od_reachable_inv r s Hb Hs) as (Hx & _).
  pose proof (count_le OD.producing OD.exclusive (OD.pool s) producing_exclusive).
  unfold b2n in Hx. destruct (sync.writer _); lia.
Qed.

Lemma sh_producing_le_1 (r : softHard) (s : SH.state_) :
  sh_built r -> SH.reachable r s -> (count sh_producing (SH.pool s) <= 1)%nat.
Proof.
  intros Hb Hs.
  destruct (sh_reachable_flag r s Hb Hs) as (Hle & Hc & _).
  pose proof (count_le sh_producing sh_owner (SH.pool s) producing_owner).
  lia.
Qed.

(** C1. At most one call of the production function is in flight: in
    every state that an instance built by [OnDemand] or by [SoftHard] can
    reach, under any interleaving of any number of calls of [Get], at most
    one goroutine stands between the call of [produce] and the completed
    store of its outcome; and whenever a goroutine is about to call
    [produce] (line 84 of on_demand.go, line 153 of [softHard.Get], line 90
    of [updateAsync]) no goroutine stands there. *)
Theorem at_most_one_production_in_flight :
  (forall (r : onDemand) (s : OD.state),
      od_built r -> OD.reachable r s ->
      (count OD.producing (OD.pool s) <= 1)%nat /\
      (forall i, OD.pool s !! i = Some OD.L84 ->
                 count OD.producing (OD.pool s) = 0%nat)) /\
  (forall (r : softHard) (s : SH.state_),
      sh_built r -> SH.reachable r s ->
      (count sh_producing (SH.pool s) <= 1)%nat /\
      (forall i g, SH.pool s !! i = Some g ->
                   SH.ip g = SH.L153 \/ SH.ip g = SH.A90 ->
                   count sh_producing (SH.pool s) = 0%nat)).
Proof.
  split.
  - intros r s Hb Hs. split; [apply (od_producing_le_1 r s Hb Hs) |].
    intros i Hi.
    set (s' := {| OD.mem := OD.set_calls (OD.mem s) (S (OD.calls (OD.mem s)));
                  OD.pool := <[i := OD.L312 (OD.calls (OD.mem s))]> (OD.pool s) |}).
    assert (Hs' : OD.reachable r s').
    { apply (OD.reach_step r s (OD.Run i)); [exact Hs |].
      simpl. rewrite Hi. reflexivity. }
    pose proof (od_producing_le_1 r s' Hb Hs') as H1.
    pose proof (count_insert OD.producing (OD.pool s) i OD.L84
                  (OD.L312 (OD.calls (OD.mem s))) Hi) as C.
    simpl in H1, C. lia.
  - intros r s Hb Hs. split; [apply (sh_producing_le_1 r s Hb Hs) |].
    intros i g Hi Hip.
    set (p' := match SH.ip g with
               | SH.L153 => SH.L153r (SH.calls (SH.mem s))
               | _ => SH.A90r (SH.calls (SH.mem s))
               end).
    set (g' := {| SH.born := SH.born g; SH.slow := SH.slow g; SH.ip := p' |}).
    set (s' := {| SH.mem := SH.set_calls (SH.mem s) (S (SH.calls (SH.mem s)));
                  SH.pool := <[i := g']> (SH.pool s) |}).
    assert (Hs' : SH.reachable r s').
    { apply (SH.reach_step r s (SH.Run i)); [exact Hs |].
      simpl. rewrite Hi. subst s' g' p'.
      destruct Hip as [-> | ->]; reflexivity. }
    pose proof (sh_producing_le_1 r s' Hb Hs') as H1.
    pose proof (count_insert sh_producing (SH.pool s) i g g' Hi) as C.
    simpl in H1.
    assert (Hg : sh_producing g = false)
      by (unfold sh_producing; destruct Hip as [-> | ->]; reflexivity).
    assert (Hg' : sh_producing g' = true)
      by (unfold sh_producing; subst g' p'; simpl;
          destruct Hip as [-> | ->]; reflexivity).
    rewrite Hg, Hg' in C. simpl in C. lia.
Qed.

Lemma at_most_one_production_in_flight_witness :
  (count OD.producing [OD.L312 0] <= 1)%nat /\
  (count sh_producing
     [{| SH.born := test_epoch; SH.slow := Some (test_epoch, None);
         SH.ip := SH.L153r 0 |}] <= 1)%nat.
Proof.
  split.
  - apply (proj1 at_most_one_production_in_flight test_onDemand
             {| OD.mem := {| OD.clock := test_epoch; OD.calls := 1;
                             OD.cell := zero_result;
                             OD.lock := {| sync.readers := 0;
                                           sync.writer := true |} |};
                OD.pool := [OD.L312 0] |}).
    + exact od_built_test.
    + apply (od_reachable_exec _ test_epoch od_schedule_producing);
        [reflexivity | vm_compute; reflexivity].
  - apply (proj2 at_most_one_production_in_flight test_softHard
             {| SH.mem := {| SH.clock := test_epoch; SH.calls := 1;
                             SH.cell := None; SH.state := 1; SH.mu := true |};
                SH.pool := [{| SH.born := test_epoch;
                               SH.slow := Some (test_epoch, None);
                               SH.ip := SH.L153r 0 |}] |}).
    + exact sh_built_test.
    + apply (sh_reachable_exec _ test_epoch sh_schedule_producing);
        [reflexivity | vm_compute; reflexivity].
Defined.

(** The result caller 0 stored, the one caller 1 produced, and caller 2 at
    the end of [sh_schedule_race]. *)
Lemma sh_race_outcome :
  let r0 := {| val := Some 0; err := None; moment := test_epoch |} in
  let r1 := {| val := None; err := Some (ErrProducer "0");
               moment := test_epoch + 200 * time.Millisecond |} in
  exists s,
    SH.exec test_softHard sh_schedule_race (SH.init test_softHard test_epoch)
    = Some s /\
    SH.pool s !! 2%nat
    = Some {| SH.born := test_epoch + 250 * time.Millisecond;
              SH.slow := Some (test_epoch + 250 * time.Millisecond, Some r0);
              SH.ip := SH.Done SH.Ret129 r1 |}.
Proof. eexists. split; vm_compute; reflexivity. Qed.

(** C2, as stated, fails.  In the run [sh_schedule_race] of the instance of
    the tests, caller 2 enters [Get] 250 ms after the epoch, finds the
    cached result past its hard deadline, and leaves through line 129 with a
    result whose moment is 200 ms after the epoch: caller 1 had stamped it
    before caller 2 entered, and stored it afterwards. *)
Lemma blocked_get_returns_moment_before_invocation :
  exists (s : SH.state_) (g : SH.goroutine) (found res : result),
    SH.reachable test_softHard s /\
    SH.pool s !! 2%nat = Some g /\
    SH.slow g = Some (SH.born g, Some found) /\
    isValidAt found (SH.born g) (sh_hard test_softHard) = false /\
    SH.ip g = SH.Done SH.Ret129 res /\
    moment res < SH.born g.
Proof.
  destruct sh_race_outcome as (s & Hexec & Hg).
  exists s. eexists. eexists. eexists.
  split.
  { apply (sh_reachable_exec _ test_epoch sh_schedule_race);
      [reflexivity | exact Hexec]. }
  split; [exact Hg |].
  simpl. repeat split.
Qed.

(** C2, amended.  A call of [Get] that gave up the fast path at the clock
    reading [lo] (no earlier than its invocation), because it found no
    result or a result [found] past its hard deadline, leaves through one
    of the returns after line 125, and what it returns is either the result
    of its own call of [produce], stamped no earlier than [lo], or a result
    loaded from the cell that is within its hard period at [lo], hence
    never the expired result it had found. *)
Theorem blocked_get_returns_unexpired (r : softHard) (s : SH.state_) (i : nat)
    (g : SH.goroutine) (ex : SH.exit) (res : result) :
  sh_built r -> SH.reachable r s ->
  SH.pool s !! i = Some g -> SH.ip g = SH.Done ex res ->
  SH.blocking ex = true \/ SH.slow g <> None ->
  exists (lo : time.Time) (found : option result),
    SH.slow g = Some (lo, found) /\
    SH.blocking ex = true /\
    SH.born g <= lo /\
    (forall r0, found = Some r0 -> isValidAt r0 lo (sh_hard r) = false) /\
    ((ex = SH.Ret159 /\ lo <= moment res) \/
     (ex <> SH.Ret159 /\ isValidAt res lo (sh_hard r) = true /\
      found <> Some res)).
Proof.
  intros Hb Hs Hi Hip Hex.
  pose proof (Forall_lookup_1 _ _ _ _ (sh_reachable_good r s Hb Hs) Hi) as [_ Hg].
  rewrite Hip in Hg.
  destruct (SH.slow g) as [[lo found] |] eqn:Hslow.
  - exists lo, found. split; [reflexivity |].
    destruct ex; simpl in Hg; try contradiction;
      destruct Hg as (H1 & H2 & H3 & H4);
      (split; [reflexivity |]); (split; [exact H1 |]); (split; [exact H3 |]).
    1-3: right; split; [discriminate |]; split; [exact H4 |];
         intros ->; rewrite (H3 res eq_refl) in H4; discriminate.
    left. split; [reflexivity | exact H4].
  - destruct Hex as [Hex | Hex]; [| congruence].
    destruct ex; simpl in Hex, Hg; try discriminate; contradiction.
Qed.

Lemma blocked_get_returns_unexpired_witness :
  let r0 := {| val := Some 0; err := None; moment := test_epoch |} in
  let r1 := {| val := None; err := Some (ErrProducer "0");
               moment := test_epoch + 200 * time.Millisecond |} in
  let g := {| SH.born := test_epoch + 250 * time.Millisecond;
              SH.slow := Some (test_epoch + 250 * time.Millisecond, Some r0);
              SH.ip := SH.Done SH.Ret129 r1 |} in
  exists (lo : time.Time) (found : option result),
    SH.slow g = Some (lo, found) /\
    SH.blocking SH.Ret129 = true /\
    SH.born g <= lo /\
    (forall r0, found = Some r0 ->
                isValidAt r0 lo (sh_hard test_softHard) = false) /\
    ((SH.Ret129 = SH.Ret159 /\ lo <= moment r1) \/
     (SH.Ret129 <> SH.Ret159 /\
      isValidAt r1 lo (sh_hard test_softHard) = true /\
      found <> Some r1)).
Proof.
  intros r0 r1 g.
  destruct sh_race_outcome as (s & Hexec & Hg).
  apply (blocked_get_returns_unexpired test_softHard s 2 g SH.Ret129 r1).
  - exact sh_built_test.
  - apply (sh_reachable_exec _ test_epoch sh_schedule_race); [reflexivity | exact Hexec].
  - exact Hg.
  - reflexivity.
  - left. reflexivity.
Defined.



(** C4. Each constructor returns either an instance and no error or an
    error and no instance.  It returns an error exactly when the context is
    nil, the producer is nil, a duration is negative or (for [SoftHard]) a
    hard period is less than the soft period of its category.  The error is
    [ErrContextNil] exactly for a nil context, [ErrProduceNil] exactly for
    a nil producer with a non-nil context, a negative-period error exactly
    when those two are present and a duration of the validated policy is
    negative, and for [SoftHard] the ordering error exactly when the soft
    policy is valid and a hard period is less than its soft period. *)
Theorem construction_errors (ctx : option Context) (produce : option ProduceFunc)
    (pp soft hard : Periods) :
  (let inst := fst (OnDemand ctx produce pp) in
   let e := snd (OnDemand ctx produce pp) in
   (inst = None <-> e <> None) /\
   (e <> None <->
    ctx = None \/ produce = None \/ Default pp < 0 \/ Error pp < 0) /\
   (e = Some ErrContextNil <-> ctx = None) /\
   (e = Some ErrProduceNil <-> ctx <> None /\ produce = None) /\
   (is_InvalidPeriod e <->
    ctx <> None /\ produce <> None /\ (Default pp < 0 \/ Error pp < 0)) /\
   (forall r, inst = Some r ->
              Some (od_ctx r) = ctx /\ Some (od_produce r) = produce /\
              od_periods r = pp /\ od_result r = zero_result)) /\
  (let inst := fst (SoftHard ctx produce soft hard) in
   let e := snd (SoftHard ctx produce soft hard) in
   (inst = None <-> e <> None) /\
   (e <> None <->
    ctx = None \/ produce = None \/
    Default soft < 0 \/ Error soft < 0 \/ Default hard < 0 \/ Error hard < 0 \/
    Default hard < Default soft \/ Error hard < Error soft) /\
   (e = Some ErrContextNil <-> ctx = None) /\
   (e = Some ErrProduceNil <-> ctx <> None /\ produce = None) /\
   (is_InvalidPeriod e <->
    ctx <> None /\ produce <> None /\ (Default soft < 0 \/ Error soft < 0)) /\
   (is_InvertedHardSoft e <->
    ctx <> None /\ produce <> None /\ 0 <= Default soft /\ 0 <= Error soft /\
    (Default hard < Default soft \/ Error hard < Error soft)) /\
   (forall r, inst = Some r ->
              Some (sh_ctx r) = ctx /\ Some (sh_produce r) = produce /\
              sh_soft r = soft /\ sh_hard r = hard /\ sh_result r = None)).
Proof.
  split.
  - unfold OnDemand, Validate.
    destruct ctx as [c |], produce as [f |]; simpl;
      try (repeat split; intros; try discriminate; try tauto; try congruence;
           try contradiction; intuition congruence).
    destruct (Z.ltb_spec (Default pp) 0); [| destruct (Z.ltb_spec (Error pp) 0)];
      simpl; repeat split; intros; try discriminate; try congruence; try lia;
      try tauto; try (intuition (try congruence; try lia; try discriminate));
      try (injection H1 as <-; reflexivity);
      try (match goal with H : Some _ = Some _ |- _ => injection H as <- end;
           reflexivity).
  - unfold SoftHard, Validate.
    destruct ctx as [c |], produce as [f |]; simpl;
      try (repeat split; intros; try discriminate; try tauto; try congruence;
           try contradiction; intuition congruence).
    destruct (Z.ltb_spec (Default soft) 0); [| destruct (Z.ltb_spec (Error soft) 0);
      [| destruct (Z.ltb_spec (Default hard) (Default soft));
         [| destruct (Z.ltb_spec (Error hard) (Error soft))]]];
      simpl; repeat split; intros; try discriminate; try congruence; try lia;
      try tauto; try (intuition (try congruence; try lia; try discriminate));
      try (match goal with H : Some _ = Some _ |- _ => injection H as <- end;
           reflexivity).
Qed.

(** [onDemand.Get] is double-checked.  Running undisturbed (time may
    pass before each statement), a caller that finds the result valid under
    the read lock returns it and changes nothing; one that does not arrives
    at line 77 having changed nothing.  From line 77, with the lock free, a
    caller that finds the result valid under the write lock returns it,
    calls nothing and leaves the lock free; one that does not calls
    [produce] once, overwrites value, error and moment, returns the new
    pair and leaves the lock free.  In every reachable state a goroutine
    between lines 70 and 71 holds a read share and no writer exists, and a
    goroutine between line 80 and the deferred unlock, in particular one
    inside [produce], is the only one there and holds the write lock with
    no reader. *)
Lemma onDemand_Get_undisturbed (r : onDemand) (m : OD.shared)
    (d1 d2 d3 d4 d5 d6 d7 d8 : time.Duration) :
  let out := od_produce r (od_ctx r) (OD.calls m) in
  (sync.writer (OD.lock m) = false ->
   (isValidAt (OD.cell m) (OD.clock m + d1 + d2) (od_periods r) = true ->
    OD.solo r [d1; d2; d3; d4] m OD.L69
    = (OD.set_clock m (OD.clock m + d1 + d2 + d3 + d4),
       OD.Done OD.Ret74 (expand (OD.cell m)))) /\
   (isValidAt (OD.cell m) (OD.clock m + d1 + d2) (od_periods r) = false ->
    OD.solo r [d1; d2; d3] m OD.L69
    = (OD.set_clock m (OD.clock m + d1 + d2 + d3), OD.L77))) /\
  (OD.lock m = sync.RWMutex_zero ->
   (isValidAt (OD.cell m) (OD.clock m + d1 + d2) (od_periods r) = true ->
    OD.solo r [d1; d2; d3; d4] m OD.L77
    = (OD.set_clock m (OD.clock m + d1 + d2 + d3 + d4),
       OD.Done OD.Ret81 (expand (OD.cell m)))) /\
   (isValidAt (OD.cell m) (OD.clock m + d1 + d2) (od_periods r) = false ->
    OD.solo r [d1; d2; d3; d4; d5; d6; d7; d8] m OD.L77
    = ({| OD.clock := OD.clock m + d1 + d2 + d3 + d4 + d5 + d6 + d7 + d8;
          OD.calls := S (OD.calls m);
          OD.cell := {| val := fst out; err := snd out;
                        moment := OD.clock m + d1 + d2 + d3 + d4 + d5 + d6 |};
          OD.lock := sync.RWMutex_zero |},
       OD.Done OD.Ret85 out))) /\
  (forall (s : OD.state) (i : nat) (p : OD.pc),
      od_built r -> OD.reachable r s -> OD.pool s !! i = Some p ->
      (OD.reading p = true ->
       sync.writer (OD.lock (OD.mem s)) = false /\
       (1 <= sync.readers (OD.lock (OD.mem s)))%nat) /\
      (OD.exclusive p = true ->
       sync.writer (OD.lock (OD.mem s)) = true /\
       sync.readers (OD.lock (OD.mem s)) = O /\
       count OD.exclusive (OD.pool s) = 1%nat)).
Proof.
  intros out. split; [| split].
  - intros Hw. split; intros Hv.
    + apply od_run_fast_hit; assumption.
    + apply od_run_fast_miss; assumption.
  - intros Hl. split; intros Hv.
    + apply od_run_slow_hit; assumption.
    + apply od_run_slow_produce; assumption.
  - intros s i p. apply od_lock_discipline.
Qed.

Lemma test_produce_exclusive (c : Context) (k : nat) (v : Z) (e : error_value) :
  test_produce c k <> (Some v, Some e).
Proof. unfold test_produce. destruct (Nat.even k); discriminate. Qed.

(** C5 fails on the code.  Line 74 reads the result through the pointer
    after the read lock has been released at line 71, so it can run while a
    writer is between the assignments of [result.produce].  In the run
    [od_schedule_torn] of the instance of the tests, caller 2 finds the
    cached (nil, error "0") valid under the read lock and returns
    (1, error "0"): the value of the third production with the error of the
    second, a pair that the producer never returned and that was never
    stored as a unit. *)
Lemma onDemand_Get_returns_torn_pair :
  exists s : OD.state,
    OD.exec test_onDemand od_schedule_torn (OD.init test_onDemand test_epoch)
    = Some s /\
    OD.pool s !! 2%nat
    = Some (OD.Done OD.Ret74 (Some 1, Some (ErrProducer "0"))) /\
    OD.pool s !! 3%nat = Some (OD.L312e None) /\
    (forall k, test_produce Background k <> (Some 1, Some (ErrProducer "0"))).
Proof.
  eexists. split; [vm_compute; reflexivity |].
  split; [reflexivity |]. split; [reflexivity |].
  intros k. apply test_produce_exclusive.
Qed.

(** C6. A call of [Get] that loads a result and finds it within its soft
    period at the time it then reads returns that result.  Its two
    statements are enabled whatever the state of the mutex and of the flag,
    change nothing in the shared memory (so [produce] is not called and no
    lock is taken) and affect no other goroutine. *)
Theorem softHard_Get_within_soft (r : softHard) (m m' : SH.shared) (res : result) :
  SH.cell m = Some res ->
  isValidAt res (SH.clock m') (sh_soft r) = true ->
  SH.tstep r m SH.L101 = Some (m, SH.L102 res, SH.Silent) /\
  SH.tstep r m' (SH.L102 res) = Some (m', SH.Done SH.Ret105 res, SH.Silent) /\
  (forall d1 d2 : time.Duration,
      isValidAt res (SH.clock m + d1 + d2) (sh_soft r) = true ->
      SH.solo r [d1; d2] m SH.L101
      = (SH.set_clock m (SH.clock m + d1 + d2), SH.Done SH.Ret105 res, [])).
Proof.
  intros Hc Hv. repeat split.
  - simpl. rewrite Hc. reflexivity.
  - simpl. rewrite Hv. reflexivity.
  - intros d1 d2 Hv'. destruct m as [clk n c st mtx]. simpl in Hc, Hv'. subst c.
    run_sh. rewrite Hv'. reflexivity.
Qed.

Lemma softHard_Get_within_soft_witness :
  SH.tstep test_softHard sh_mem_rest SH.L101
  = Some (sh_mem_rest, SH.L102 first_result, SH.Silent) /\
  SH.tstep test_softHard
    (SH.set_clock sh_mem_rest (test_epoch + 70 * time.Millisecond))
    (SH.L102 first_result)
  = Some (SH.set_clock sh_mem_rest (test_epoch + 70 * time.Millisecond),
          SH.Done SH.Ret105 first_result, SH.Silent) /\
  (forall d1 d2 : time.Duration,
      isValidAt first_result (SH.clock sh_mem_rest + d1 + d2)
        (sh_soft test_softHard) = true ->
      SH.solo test_softHard [d1; d2] sh_mem_rest SH.L101
      = (SH.set_clock sh_mem_rest (SH.clock sh_mem_rest + d1 + d2),
         SH.Done SH.Ret105 first_result, [])).
Proof.
  apply (softHard_Get_within_soft test_softHard sh_mem_rest
           (SH.set_clock sh_mem_rest (test_epoch + 70 * time.Millisecond))
           first_result).
  - reflexivity.
  - reflexivity.
Defined.

(** C7. Between the soft and the hard deadline [Get] tries the
    compare-and-swap of line 109; losing it, it returns the stale result at
    once.  Winning it (the flag becomes 1), it loads the result again and
    tests it against the soft policy: if that result is within its soft
    period the caller locks, stores 0 in the flag, broadcasts, unlocks and
    returns it, and [produce] is not called; otherwise it starts the
    goroutine of [updateAsync] and returns the reloaded result with the flag
    still 1, and that goroutine calls [produce] once, stores value, error
    and moment in a single [Store], then locks, stores 0 in the flag,
    broadcasts and unlocks. *)
Theorem softHard_Get_within_hard (r : softHard) (m : SH.shared)
    (res res' : result) (now : time.Time)
    (d1 d2 d3 d4 d5 d6 d7 d8 : time.Duration) :
  (isValidAt res (SH.clock m) (sh_soft r) = false ->
   isValidAt res (SH.clock m) (sh_hard r) = true ->
   SH.tstep r m (SH.L102 res) = Some (m, SH.L109 res (SH.clock m), SH.Silent)) /\
  (SH.state m = 0%N ->
   SH.tstep r m (SH.L109 res now)
   = Some (SH.set_state m 1%N, SH.L110 now, SH.Silent)) /\
  (SH.state m <> 0%N ->
   SH.tstep r m (SH.L109 res now) = Some (m, SH.Done SH.Ret121 res, SH.Silent)) /\
  (SH.cell m = Some res' -> SH.mu m = false ->
   isValidAt res' now (sh_soft r) = true ->
   SH.solo r [d1; d2; d3; d4; d5] m (SH.L110 now)
   = ({| SH.clock := SH.clock m + d1 + d2 + d3 + d4 + d5;
         SH.calls := SH.calls m;
         SH.cell := Some res';
         SH.state := 0%N;
         SH.mu := false |},
      SH.Done SH.Ret121 res', [SH.Broadcast])) /\
  (SH.cell m = Some res' ->
   isValidAt res' now (sh_soft r) = false ->
   SH.solo r [d1; d2] m (SH.L110 now)
   = (SH.set_clock m (SH.clock m + d1 + d2), SH.Done SH.Ret121 res', [SH.Go])) /\
  (forall (s : SH.state_) (i : nat) (g : SH.goroutine),
      SH.pool s !! i = Some g -> SH.ip g = SH.L117 res' ->
      SH.step r (SH.Run i) s
      = Some {| SH.mem := SH.mem s;
                SH.pool :=
                  <[i := {| SH.born := SH.born g; SH.slow := SH.slow g;
                            SH.ip := SH.Done SH.Ret121 res' |}]> (SH.pool s)
                  ++ [SH.fresh (SH.clock (SH.mem s)) SH.A90] |}) /\
  (SH.mu m = false ->
   SH.solo r [d1; d2; d3; d4; d5; d6; d7; d8] m SH.A90
   = ({| SH.clock := SH.clock m + d1 + d2 + d3 + d4 + d5 + d6 + d7 + d8;
         SH.calls := S (SH.calls m);
         SH.cell := Some (produceResult (sh_produce r (sh_ctx r) (SH.calls m))
                                      (SH.clock m + d1 + d2 + d3));
         SH.state := 0%N;
         SH.mu := false |},
      SH.AExit, [SH.Broadcast])).
Proof.
  repeat split.
  - intros Hs Hh. simpl. rewrite Hs, Hh. reflexivity.
  - intros Hst. simpl. rewrite Hst. reflexivity.
  - intros Hst. simpl. apply N.eqb_neq in Hst. rewrite Hst. reflexivity.
  - apply sh_run_recheck_fresh.
  - apply sh_run_recheck_stale.
  - intros s i g. apply sh_step_go.
  - apply sh_run_async.
Qed.

Lemma softHard_Get_within_hard_witness :
  SH.tstep test_softHard sh_mem_rest (SH.L102 first_result)
  = Some (sh_mem_rest, SH.L109 first_result (SH.clock sh_mem_rest), SH.Silent) /\
  SH.tstep test_softHard sh_mem_rest (SH.L109 first_result (SH.clock sh_mem_rest))
  = Some (SH.set_state sh_mem_rest 1%N, SH.L110 (SH.clock sh_mem_rest), SH.Silent) /\
  SH.solo test_softHard [0; 0] sh_mem_rest (SH.L110 (SH.clock sh_mem_rest))
  = (SH.set_clock sh_mem_rest (SH.clock sh_mem_rest + 0 + 0),
     SH.Done SH.Ret121 first_result, [SH.Go]).
Proof.
  pose proof (softHard_Get_within_hard test_softHard sh_mem_rest
                first_result first_result (SH.clock sh_mem_rest)
                0 0 0 0 0 0 0 0) as (H1 & H2 & _ & _ & H5 & _).
  split; [apply H1; reflexivity |].
  split; [apply H2; reflexivity |].
  apply H5; reflexivity.
Defined.

(** The caller that produces.  At each of the three places where [produce]
    is called (line 84 of the on-demand [Get], line 153 of the soft/hard
    [Get], line 90 of the goroutine of [updateAsync]) the outcome, whatever
    it is, is stored together with the time read right after the call,
    [produce] is called exactly once, and the caller that made the call
    returns the outcome as it is.  The stored result is then valid exactly
    until its moment plus the period selected by its error: the error
    period if the producer returned an error. *)
Theorem produced_error_is_cached (rod : onDemand) (rsh : softHard)
    (mo : OD.shared) (ms : SH.shared) (now : time.Time) (pp : Periods)
    (d1 d2 d3 d4 d5 d6 d7 d8 : time.Duration) :
  let oo := od_produce rod (od_ctx rod) (OD.calls mo) in
  let os := sh_produce rsh (sh_ctx rsh) (SH.calls ms) in
  let ro := {| val := fst oo; err := snd oo;
               moment := OD.clock mo + d1 + d2 + d3 + d4 |} in
  let rs := produceResult os (SH.clock ms + d1 + d2 + d3) in
  0 < OD.clock mo -> 0 < SH.clock ms ->
  0 <= d1 -> 0 <= d2 -> 0 <= d3 -> 0 <= d4 ->
  (OD.solo rod [d1; d2; d3; d4; d5; d6] mo OD.L84
   = ({| OD.clock := OD.clock mo + d1 + d2 + d3 + d4 + d5 + d6;
         OD.calls := S (OD.calls mo);
         OD.cell := ro;
         OD.lock := sync.Unlock (OD.lock mo) |},
      OD.Done OD.Ret85 oo)) /\
  (SH.solo rsh [d1; d2; d3; d4; d5; d6; d7] ms SH.L153
   = ({| SH.clock := SH.clock ms + d1 + d2 + d3 + d4 + d5 + d6 + d7;
         SH.calls := S (SH.calls ms);
         SH.cell := Some rs;
         SH.state := 0%N;
         SH.mu := false |},
      SH.Done SH.Ret159 rs, [SH.Broadcast])) /\
  (SH.mu ms = false ->
   SH.solo rsh [d1; d2; d3; d4; d5; d6; d7; d8] ms SH.A90
   = ({| SH.clock := SH.clock ms + d1 + d2 + d3 + d4 + d5 + d6 + d7 + d8;
         SH.calls := S (SH.calls ms);
         SH.cell := Some rs;
         SH.state := 0%N;
         SH.mu := false |},
      SH.AExit, [SH.Broadcast])) /\
  expand ro = oo /\ expand rs = os /\
  (forall e : error_value, snd oo = Some e ->
     err ro = Some e /\
     (isValidAt ro now pp = true <-> now < moment ro + Error pp)) /\
  (forall e : error_value, snd os = Some e ->
     err rs = Some e /\
     (isValidAt rs now pp = true <-> now < moment rs + Error pp)) /\
  (snd oo = None ->
     (isValidAt ro now pp = true <-> now < moment ro + Default pp)) /\
  (snd os = None ->
     (isValidAt rs now pp = true <-> now < moment rs + Default pp)).
Proof.
  intros oo os ro rs Ho Hs H1 H2 H3 H4.
  split; [apply od_run_produce |].
  split; [apply sh_run_produce |].
  split; [apply sh_run_async |].
  split; [subst ro; destruct oo; reflexivity |].
  split; [subst rs; destruct os; reflexivity |].
  repeat split; try assumption;
    try (rewrite isValidAt_true; simpl;
         match goal with H : snd _ = _ |- _ => rewrite H end; simpl; lia).
Qed.

Lemma produced_error_is_cached_witness :
  OD.solo test_onDemand [0; 0; 0; 0; 0; 0] od_mem_rest OD.L84
  = ({| OD.clock := test_epoch + 80 * time.Millisecond;
        OD.calls := 2;
        OD.cell := {| val := None; err := Some (ErrProducer "0");
                      moment := test_epoch + 80 * time.Millisecond |};
        OD.lock := sync.RWMutex_zero |},
     OD.Done OD.Ret85 (None, Some (ErrProducer "0"))).
Proof.
  exact (proj1 (produced_error_is_cached test_onDemand test_softHard
                  od_mem_rest sh_mem_rest 0 (New defaultPeriod errorPeriod)
                  0 0 0 0 0 0 0 0
                  eq_refl eq_refl
                  (Z.le_refl 0) (Z.le_refl 0) (Z.le_refl 0) (Z.le_refl 0))).
Defined.

(** When [produce] returns both a value and an error, both are stored and
    both are returned, unchanged, by the caller that made the call, at each
    of the places where [produce] is called, and the stored result counts
    as an error: its validity is measured with the error period. *)
Theorem value_and_error_both_kept (rod : onDemand) (rsh : softHard)
    (mo : OD.shared) (ms : SH.shared) (v : Z) (e : error_value)
    (now : time.Time) (pp : Periods)
    (d1 d2 d3 d4 d5 d6 d7 d8 : time.Duration) :
  let ro := {| val := Some v; err := Some e;
               moment := OD.clock mo + d1 + d2 + d3 + d4 |} in
  let rs := {| val := Some v; err := Some e;
               moment := SH.clock ms + d1 + d2 + d3 |} in
  0 < OD.clock mo -> 0 < SH.clock ms ->
  0 <= d1 -> 0 <= d2 -> 0 <= d3 -> 0 <= d4 ->
  (od_produce rod (od_ctx rod) (OD.calls mo) = (Some v, Some e) ->
   OD.solo rod [d1; d2; d3; d4; d5; d6] mo OD.L84
   = ({| OD.clock := OD.clock mo + d1 + d2 + d3 + d4 + d5 + d6;
         OD.calls := S (OD.calls mo);
         OD.cell := ro;
         OD.lock := sync.Unlock (OD.lock mo) |},
      OD.Done OD.Ret85 (Some v, Some e))) /\
  (sh_produce rsh (sh_ctx rsh) (SH.calls ms) = (Some v, Some e) ->
   SH.solo rsh [d1; d2; d3; d4; d5; d6; d7] ms SH.L153
   = ({| SH.clock := SH.clock ms + d1 + d2 + d3 + d4 + d5 + d6 + d7;
         SH.calls := S (SH.calls ms);
         SH.cell := Some rs;
         SH.state := 0%N;
         SH.mu := false |},
      SH.Done SH.Ret159 rs, [SH.Broadcast])) /\
  (sh_produce rsh (sh_ctx rsh) (SH.calls ms) = (Some v, Some e) ->
   SH.mu ms = false ->
   SH.solo rsh [d1; d2; d3; d4; d5; d6; d7; d8] ms SH.A90
   = ({| SH.clock := SH.clock ms + d1 + d2 + d3 + d4 + d5 + d6 + d7 + d8;
         SH.calls := S (SH.calls ms);
         SH.cell := Some rs;
         SH.state := 0%N;
         SH.mu := false |},
      SH.AExit, [SH.Broadcast])) /\
  expand ro = (Some v, Some e) /\ expand rs = (Some v, Some e) /\
  Period pp (err ro) = Error pp /\ Period pp (err rs) = Error pp /\
  (isValidAt ro now pp = true <-> now < moment ro + Error pp) /\
  (isValidAt rs now pp = true <-> now < moment rs + Error pp).
Proof.
  intros ro rs Ho Hs H1 H2 H3 H4.
  split; [| split; [| split]].
  - intros Hp. rewrite od_run_produce, Hp. reflexivity.
  - intros Hp. rewrite sh_run_produce, Hp. reflexivity.
  - intros Hp Hmu. rewrite sh_run_async by exact Hmu. rewrite Hp. reflexivity.
  - repeat split; try (rewrite isValidAt_true; simpl; lia).
Qed.

Lemma value_and_error_both_kept_witness :
  SH.solo
    {| sh_ctx := Background; sh_produce := both_produce;
       sh_soft := New defaultPeriod errorPeriod;
       sh_hard := New defaultPeriod errorPeriod;
       sh_result := None; sh_lock := false; sh_state := 0%N |}
    [0; 0; 0; 0; 0; 0; 0] sh_mem_rest SH.L153
  = ({| SH.clock := test_epoch + 80 * time.Millisecond;
        SH.calls := 2;
        SH.cell := Some {| val := Some 1; err := Some (ErrProducer "partial");
                           moment := test_epoch + 80 * time.Millisecond |};
        SH.state := 0%N;
        SH.mu := false |},
     SH.Done SH.Ret159
       {| val := Some 1; err := Some (ErrProducer "partial");
          moment := test_epoch + 80 * time.Millisecond |},
     [SH.Broadcast]).
Proof.
  exact (proj1 (proj2
           (value_and_error_both_kept
              {| od_ctx := Background; od_produce := both_produce;
                 od_periods := New defaultPeriod errorPeriod;
                 od_result := zero_result; od_lock := sync.RWMutex_zero |}
              {| sh_ctx := Background; sh_produce := both_produce;
                 sh_soft := New defaultPeriod errorPeriod;
                 sh_hard := New defaultPeriod errorPeriod;
                 sh_result := None; sh_lock := false; sh_state := 0%N |}
              od_mem_rest sh_mem_rest 1 (ErrProducer "partial") 0
              (New defaultPeriod errorPeriod)
              0 0 0 0 0 0 0 0
              eq_refl eq_refl
              (Z.le_refl 0) (Z.le_refl 0) (Z.le_refl 0) (Z.le_refl 0)))
           eq_refl).
Defined.

(** C10. [OnDemandNoCtx] and [SoftHardNoCtx] call the constructors with the
    background context; they never return [ErrContextNil], and the only
    errors they return are [ErrProduceNil], a negative-period error and,
    for [SoftHardNoCtx], the ordering error. *)
Theorem NoCtx_never_ErrContextNil (produce : option ProduceFunc)
    (pp soft hard : Periods) :
  OnDemandNoCtx produce pp = OnDemand (Some Background) produce pp /\
  SoftHardNoCtx produce soft hard = SoftHard (Some Background) produce soft hard /\
  snd (OnDemandNoCtx produce pp) <> Some ErrContextNil /\
  snd (SoftHardNoCtx produce soft hard) <> Some ErrContextNil /\
  (let e := snd (OnDemandNoCtx produce pp) in
   e = None \/ (e = Some ErrProduceNil /\ produce = None) \/
   (is_InvalidPeriod e /\ (Default pp < 0 \/ Error pp < 0))) /\
  (let e := snd (SoftHardNoCtx produce soft hard) in
   e = None \/ (e = Some ErrProduceNil /\ produce = None) \/
   (is_InvalidPeriod e /\ (Default soft < 0 \/ Error soft < 0)) \/
   (is_InvertedHardSoft e /\
    (Default hard < Default soft \/ Error hard < Error soft))).
Proof.
  unfold OnDemandNoCtx, SoftHardNoCtx, OnDemand, SoftHard, Validate.
  split; [reflexivity |]. split; [reflexivity |].
  split; [| split; [| split]].
  - destruct produce; [| discriminate].
    destruct (Default pp <? 0); [discriminate |].
    destruct (Error pp <? 0); discriminate.
  - destruct produce; [| discriminate].
    destruct (Default soft <? 0); [discriminate |].
    destruct (Error soft <? 0); [discriminate |].
    destruct (Default hard <? Default soft); [discriminate |].
    destruct (Error hard <? Error soft); discriminate.
  - destruct produce; [| cbv zeta; simpl; tauto].
    destruct (Z.ltb_spec (Default pp) 0); [cbv zeta; simpl; tauto |].
    destruct (Z.ltb_spec (Error pp) 0); cbv zeta; simpl; tauto.
  - destruct produce; [| cbv zeta; simpl; tauto].
    destruct (Z.ltb_spec (Default soft) 0); [cbv zeta; simpl; tauto |].
    destruct (Z.ltb_spec (Error soft) 0); [cbv zeta; simpl; tauto |].
    destruct (Z.ltb_spec (Default hard) (Default soft)); [cbv zeta; simpl; tauto |].
    destruct (Z.ltb_spec (Error hard) (Error soft)); cbv zeta; simpl; tauto.
Qed.

(** * Further properties of the code *)

(** ** Counting, continued *)

Lemma count_exists {A} (f : A -> bool) (l : list A) :
  (0 < count f l)%nat -> exists i x, l !! i = Some x /\ f x = true.
Proof.
  induction l as [| y l IH]; simpl; [lia |].
  destruct (f y) eqn:Hy.
  - intros _. exists O, y. split; [reflexivity | exact Hy].
  - intros H. destruct IH as (i & x & Hi & Hx); [lia |].
    exists (S i), x. split; assumption.
Qed.

Lemma count_sum {A} (f g h : A -> bool) (l : list A) :
  (forall x, b2n (f x) = (b2n (g x) + b2n (h x))%nat) ->
  count f l = (count g l + count h l)%nat.
Proof.
  intros H. induction l as [| x l IH]; simpl; [reflexivity |].
  specialize (H x). unfold b2n in H.
  destruct (f x), (g x), (h x); simpl in *; lia.
Qed.

(** Of two goroutines of a pool in which at most one satisfies [f], only
    one does. *)
Lemma count_unique {A} (f : A -> bool) (l : list A) (i j : nat) (x y : A) :
  (count f l <= 1)%nat -> l !! i = Some x -> l !! j = Some y -> i <> j ->
  f x = true -> f y = false.
Proof.
  revert i j. induction l as [| z l IH]; intros [| i] [| j] Hc Hi Hj Hij Hx;
    simpl in *; try discriminate; try congruence.
  - injection Hi as ->. rewrite Hx in Hc.
    destruct (f y) eqn:Hy; [| reflexivity].
    pose proof (count_lookup f l j y Hj Hy). lia.
  - injection Hj as ->. destruct (f y) eqn:Hy; [| reflexivity].
    pose proof (count_lookup f l i x Hi Hx). lia.
  - apply (IH i j); auto. destruct (f z); lia.
Qed.

Lemma sh_parked_wake (l : list SH.goroutine) :
  count sh_parked (SH.wake <$> l) = O.
Proof.
  induction l as [| [b sl p] l IH]; [reflexivity |].
  rewrite fmap_cons. cbn [count]. rewrite IH.
  unfold SH.wake, sh_parked. simpl. destruct p; reflexivity.
Qed.

Lemma sh_locked_split (l : list SH.goroutine) :
  count sh_locked l
  = (count sh_waiting l + (count sh_notifying l + count sh_locked_else l))%nat.
Proof.
  rewrite <- (count_sum (fun g => sh_notifying g || sh_locked_else g)
                sh_notifying sh_locked_else).
  - apply count_sum. intros [b sl p].
    unfold sh_locked, sh_waiting, sh_notifying, sh_locked_else,
      sh_locked, sh_waiting, sh_notifying. simpl. destruct p; reflexivity.
  - intros [b sl p].
    unfold sh_locked, sh_waiting, sh_notifying, sh_locked_else,
      sh_locked, sh_waiting, sh_notifying. simpl. destruct p; reflexivity.
Qed.

(** ** The soft/hard strategy: mutex and wake-ups *)

Lemma sh_waiting_wake g : sh_waiting (SH.wake g) = sh_waiting g.
Proof. unfold SH.wake, sh_waiting. destruct g as [b sl []]; reflexivity. Qed.

Lemma sh_notifying_wake g : sh_notifying (SH.wake g) = sh_notifying g.
Proof. unfold SH.wake, sh_notifying. destruct g as [b sl []]; reflexivity. Qed.

Lemma sh_locked_else_wake g : sh_locked_else (SH.wake g) = sh_locked_else g.
Proof.
  unfold SH.wake, sh_locked_else, sh_locked, sh_waiting, sh_notifying.
  destruct g as [b sl []]; reflexivity.
Qed.

Lemma sh_loaded_wake g : sh_loaded (SH.wake g) = sh_loaded g.
Proof. unfold SH.wake, sh_loaded. destruct g as [b sl []]; reflexivity. Qed.

Lemma sh_parked_after_effect (eff : SH.effect) (pool : list SH.goroutine)
    (a : SH.goroutine) :
  sh_parked a = false ->
  count sh_parked match eff with
                  | SH.Silent => pool
                  | SH.Go => pool ++ [a]
                  | SH.Broadcast => SH.wake <$> pool
                  end
  = match eff with SH.Broadcast => O | _ => count sh_parked pool end.
Proof.
  intros Ha. destruct eff.
  - reflexivity.
  - rewrite count_app. simpl. rewrite Ha. lia.
  - apply sh_parked_wake.
Qed.

Lemma sh_sync_inv_step (r : softHard) (l : SH.label) (s s' : SH.state_) :
  sh_flag_inv s -> sh_sync_inv s -> SH.step r l s = Some s' -> sh_sync_inv s'.
Proof.
  intros (Hle & _ & _) (Hl & Hw & Hp) Hstep.
  rewrite sh_locked_split in Hl.
  destruct s as [m pool]. simpl in *.
  destruct l as [d | | i]; simpl in Hstep.
  - destruct (Z.leb_spec 0 d); [| discriminate].
    injection Hstep as <-. unfold sh_sync_inv. rewrite sh_locked_split. simpl.
    repeat split; assumption.
  - injection Hstep as <-. unfold sh_sync_inv. rewrite sh_locked_split. simpl.
    rewrite !count_app. simpl. repeat split; lia.
  - destruct (pool !! i) as [g |] eqn:Hi; [| discriminate].
    destruct (SH.tstep r m (SH.ip g)) as [[[m' p'] eff] |] eqn:Ht; [| discriminate].
    injection Hstep as <-. unfold sh_sync_inv. rewrite sh_locked_split. simpl.
    set (g' := {| SH.born := SH.born g;
                  SH.slow := SH.enter (SH.clock m) (SH.ip g) p' (SH.slow g);
                  SH.ip := p' |}).
    pose proof (count_insert sh_waiting pool i g g' Hi) as Cw.
    pose proof (count_insert sh_notifying pool i g g' Hi) as Cn.
    pose proof (count_insert sh_locked_else pool i g g' Hi) as Ce.
    pose proof (count_insert sh_parked pool i g g' Hi) as Cp.
    rewrite (count_after_effect sh_waiting) by apply sh_waiting_wake.
    rewrite (count_after_effect sh_notifying) by apply sh_notifying_wake.
    rewrite (count_after_effect sh_locked_else) by apply sh_locked_else_wake.
    rewrite sh_parked_after_effect by reflexivity.
    remember (count sh_waiting (<[i:=g']> pool)) as jw eqn:E1.
    remember (count sh_notifying (<[i:=g']> pool)) as jn eqn:E2.
    remember (count sh_locked_else (<[i:=g']> pool)) as je eqn:E3.
    remember (count sh_parked (<[i:=g']> pool)) as jp eqn:E4.
    remember (count sh_waiting pool) as cw eqn:E5.
    remember (count sh_notifying pool) as cn eqn:E6.
    remember (count sh_locked_else pool) as ce eqn:E7.
    remember (count sh_parked pool) as cp eqn:E8.
    clear E1 E2 E3 E4 E5 E6 E7 E8.
    unfold sh_locked_else, sh_locked, sh_waiting, sh_notifying, sh_parked in *.
    subst g'. simpl in *.
    destruct m as [clk n c st mtx]. simpl in *.
    destruct (SH.ip g); sh_tstep_cases Ht;
      injection Ht as <- <- <-; simpl in *; unfold b2n in *;
      repeat match goal with
             | H : (_ =? _)%N = true |- _ => apply N.eqb_eq in H
             | H : (_ =? _)%N = false |- _ => apply N.eqb_neq in H
             | H : (_ <? _)%N = true |- _ => apply N.ltb_lt in H
             | H : (_ <? _)%N = false |- _ => apply N.ltb_ge in H
             end;
      try destruct mtx; try discriminate; simpl in *;
      repeat split; try lia.
Qed.

Lemma sh_cell_inv_step (r : softHard) (l : SH.label) (s s' : SH.state_) :
  sh_cell_inv s -> SH.step r l s = Some s' -> sh_cell_inv s'.
Proof.
  unfold sh_cell_inv. intros Hc Hstep.
  destruct s as [m pool]. simpl in *.
  destruct l as [d | | i]; simpl in Hstep.
  - destruct (0 <=? d); [| discriminate]. injection Hstep as <-. exact Hc.
  - injection Hstep as <-. simpl. intros Hn.
    rewrite count_app, (Hc Hn). reflexivity.
  - destruct (pool !! i) as [g |] eqn:Hi; [| discriminate].
    destruct (SH.tstep r m (SH.ip g)) as [[[m' p'] eff] |] eqn:Ht; [| discriminate].
    injection Hstep as <-. simpl.
    set (g' := {| SH.born := SH.born g;
                  SH.slow := SH.enter (SH.clock m) (SH.ip g) p' (SH.slow g);
                  SH.ip := p' |}).
    pose proof (count_insert sh_loaded pool i g g' Hi) as C.
    rewrite (count_after_effect sh_loaded) by apply sh_loaded_wake.
    remember (count sh_loaded (<[i:=g']> pool)) as j eqn:E1.
    remember (count sh_loaded pool) as c eqn:E2. clear E1 E2.
    unfold sh_loaded in *. subst g'. simpl in *.
    destruct m as [clk n ce st mtx]. simpl in *.
    destruct (SH.ip g); sh_tstep_cases Ht;
      injection Ht as <- <- <-; simpl in *; unfold b2n in *;
      intros Hn; try discriminate; specialize (Hc Hn); lia.
Qed.

Lemma sh_reachable_sync (r : softHard) (s : SH.state_) :
  sh_built r -> SH.reachable r s -> sh_sync_inv s /\ sh_cell_inv s.
Proof.
  intros Hb Hs. induction Hs as [t0 Ht | s l s' Hs IH Hstep].
  - destruct Hb as (ctx & produce & soft & hard & Hr).
    apply SoftHard_ok in Hr as (_ & _ & _ & Hmu & _).
    unfold sh_sync_inv, sh_cell_inv, SH.init. simpl. rewrite Hmu. simpl.
    repeat split; lia.
  - destruct IH as [IH1 IH2]. split.
    + eapply sh_sync_inv_step; eauto using sh_reachable_flag.
    + eapply sh_cell_inv_step; eauto.
Qed.

(** A goroutine that holds the mutex can always execute its next
    statement. *)
Lemma sh_locked_enabled (r : softHard) (m : SH.shared) (g : SH.goroutine) :
  sh_locked g = true -> SH.tstep r m (SH.ip g) <> None.
Proof.
  unfold sh_locked. destruct (SH.ip g); try discriminate; intros _; simpl;
    repeat match goal with
           | |- context [match ?x with Some _ => _ | None => _ end] => destruct x
           | |- context [if ?b then _ else _] => destruct b
           end; discriminate.
Qed.

(** With the mutex free, a goroutine cannot move only if it is suspended,
    finished, or at the type assertion of line 110 with an empty cell. *)
Lemma sh_stuck (r : softHard) (m : SH.shared) (g : SH.goroutine) :
  SH.mu m = false -> SH.tstep r m (SH.ip g) = None ->
  sh_parked g = true \/ sh_finished g = true \/
  (sh_loaded g = true /\ SH.cell m = None).
Proof.
  unfold sh_parked, sh_finished, sh_loaded. intros Hmu.
  destruct (SH.ip g); simpl; rewrite ?Hmu; auto;
    repeat match goal with
           | |- context [match ?x with Some _ => _ | None => _ end] =>
               destruct x eqn:?
           | |- context [if ?b then _ else _] => destruct b
           end; try discriminate; auto.
Qed.

Lemma sh_step_of_tstep (r : softHard) (s : SH.state_) (i : nat)
    (g : SH.goroutine) :
  SH.pool s !! i = Some g -> SH.tstep r (SH.mem s) (SH.ip g) <> None ->
  exists s', SH.step r (SH.Run i) s = Some s'.
Proof.
  intros Hi Ht. simpl. rewrite Hi.
  destruct (SH.tstep r (SH.mem s) (SH.ip g)) as [[[m' p'] eff] |];
    [eauto | contradiction].
Qed.

Lemma sh_no_deadlock (r : softHard) (s : SH.state_) (i : nat) (g : SH.goroutine) :
  sh_built r -> SH.reachable r s ->
  SH.pool s !! i = Some g -> sh_finished g = false ->
  exists j s', SH.step r (SH.Run j) s = Some s'.
Proof.
  intros Hb Hs Hi Hfin.
  destruct (sh_reachable_flag r s Hb Hs) as (Hle & Hown & _).
  destruct (sh_reachable_sync r s Hb Hs) as ((Hl & Hw & Hp) & Hcell).
  destruct (SH.mu (SH.mem s)) eqn:Hmu.
  - destruct (count_exists sh_locked (SH.pool s)) as (j & gj & Hj & Hlj);
      [rewrite Hl; simpl; lia |].
    exists j. eapply sh_step_of_tstep; [exact Hj |].
    apply sh_locked_enabled. exact Hlj.
  - destruct (SH.tstep r (SH.mem s) (SH.ip g)) eqn:Ht.
    { exists i. eapply sh_step_of_tstep; [exact Hi | congruence]. }
    destruct (sh_stuck r (SH.mem s) g Hmu Ht) as [Hpk | [Hf | [Hld Hc]]].
    + pose proof (count_lookup _ _ _ _ Hi Hpk) as H1.
      rewrite sh_locked_split in Hl. simpl in Hl.
      destruct Hp as [Hst | Hn]; [lia | | lia].
      destruct (count_exists sh_owner (SH.pool s)) as (j & gj & Hj & Hoj);
        [rewrite Hown, Hst; simpl; lia |].
      exists j. eapply sh_step_of_tstep; [exact Hj |].
      intros Htj. destruct (sh_stuck r (SH.mem s) gj Hmu Htj) as [H | [H | [H Hc]]].
      * unfold sh_owner, sh_parked in *. destruct (SH.ip gj); discriminate.
      * unfold sh_owner, sh_finished in *. destruct (SH.ip gj); discriminate.
      * pose proof (count_lookup _ _ _ _ Hj H). specialize (Hcell Hc). lia.
    + congruence.
    + pose proof (count_lookup _ _ _ _ Hi Hld). specialize (Hcell Hc). lia.
Qed.

(** ** The on-demand strategy: progress *)

Lemma od_step_of_tstep (r : onDemand) (s : OD.state) (i : nat) (p : OD.pc) :
  OD.pool s !! i = Some p -> OD.tstep r (OD.mem s) p <> None ->
  exists s', OD.step r (OD.Run i) s = Some s'.
Proof.
  intros Hi Ht. simpl. rewrite Hi.
  destruct (OD.tstep r (OD.mem s) p) as [[m' p'] |]; [eauto | contradiction].
Qed.

Lemma od_stuck (r : onDemand) (m : OD.shared) (p : OD.pc) :
  OD.tstep r m p = None ->
  od_returned p = true \/ sync.writer (OD.lock m) = true \/
  (0 < sync.readers (OD.lock m))%nat.
Proof.
  destruct m as [clk n c [rd wr]].
  destruct p; simpl; unfold sync.RLock, sync.Lock; simpl;
    try discriminate; auto;
    destruct wr; auto; try discriminate;
    destruct rd; try discriminate; intros _; right; right; lia.
Qed.

Lemma od_no_deadlock (r : onDemand) (s : OD.state) (i : nat) (p : OD.pc) :
  od_built r -> OD.reachable r s ->
  OD.pool s !! i = Some p -> od_returned p = false ->
  exists j s', OD.step r (OD.Run j) s = Some s'.
Proof.
  intros Hb Hs Hi Hfin.
  destruct (od_reachable_inv r s Hb Hs) as (Hx & Hr & Hrw & _).
  destruct (OD.tstep r (OD.mem s) p) eqn:Ht.
  { exists i. eapply od_step_of_tstep; [exact Hi | congruence]. }
  destruct (od_stuck r (OD.mem s) p Ht) as [H | [Hw | Hrd]]; [congruence | |].
  - destruct (count_exists OD.exclusive (OD.pool s)) as (j & pj & Hj & Hxj);
      [rewrite Hx, Hw; simpl; lia |].
    exists j. eapply od_step_of_tstep; [exact Hj |].
    intros Htj. destruct pj; try discriminate;
      simpl in Htj; try destruct (OD.get r (OD.mem s)); discriminate.
  - destruct (count_exists OD.reading (OD.pool s)) as (j & pj & Hj & Hrj);
      [rewrite Hr; lia |].
    exists j. eapply od_step_of_tstep; [exact Hj |].
    intros Htj. destruct pj; discriminate.
Qed.

(** ** The soft/hard strategy: where results come from *)

Lemma sh_origin_mono (r : softHard) (n n' : nat) (clk clk' : time.Time)
    (res : result) :
  (n <= n')%nat -> clk <= clk' -> sh_origin r n clk res -> sh_origin r n' clk' res.
Proof.
  intros Hn Hc (k & t & Hk & H0 & Ht & ->).
  exists k, t. repeat split; try lia.
Qed.

Lemma sh_prov_good_mono (r : softHard) (n n' : nat) (clk clk' : time.Time)
    (g : SH.goroutine) :
  (n <= n')%nat -> clk <= clk' -> sh_prov_good r n clk g -> sh_prov_good r n' clk' g.
Proof.
  intros Hn Hc (H1 & H2 & H3). repeat split.
  - intros res Hres. eapply sh_origin_mono; eauto.
  - intros out Hout. destruct (H2 out Hout) as (k & Hk & ->).
    exists k. split; [lia | reflexivity].
  - intros k Hk. specialize (H3 k Hk). lia.
Qed.

Lemma sh_prov_good_wake (r : softHard) (n : nat) (clk : time.Time)
    (g : SH.goroutine) :
  sh_prov_good r n clk g -> sh_prov_good r n clk (SH.wake g).
Proof.
  unfold SH.wake, sh_prov_good. destruct g as [b sl p]. simpl.
  destruct p; simpl; auto.
Qed.

Lemma sh_tstep_calls (r : softHard) (m m' : SH.shared) (p p' : SH.pc) eff :
  SH.tstep r m p = Some (m', p', eff) -> (SH.calls m <= SH.calls m')%nat.
Proof.
  intros Ht. destruct p; sh_tstep_cases Ht; injection Ht as <- <- <-;
    simpl; lia.
Qed.

Lemma sh_prov_inv_step (r : softHard) (l : SH.label) (s s' : SH.state_) :
  sh_prov_inv r s -> SH.step r l s = Some s' -> sh_prov_inv r s'.
Proof.
  intros (Hpos & Hc & HF) Hstep.
  destruct s as [m pool]. simpl in *.
  destruct l as [d | | i]; simpl in Hstep.
  - destruct (Z.leb_spec 0 d); [| discriminate].
    injection Hstep as <-. unfold sh_prov_inv. simpl.
    split; [lia |]. split.
    + intros res Hres. eapply sh_origin_mono; [| | exact (Hc res Hres)]; lia.
    + eapply Forall_impl; [exact HF |].
      intros g. apply sh_prov_good_mono; lia.
  - injection Hstep as <-. unfold sh_prov_inv. simpl.
    split; [exact Hpos |]. split; [exact Hc |].
    apply Forall_app. split; [exact HF |].
    constructor; [| constructor]. repeat split; discriminate.
  - destruct (pool !! i) as [g |] eqn:Hi; [| discriminate].
    destruct (SH.tstep r m (SH.ip g)) as [[[m' p'] eff] |] eqn:Ht; [| discriminate].
    injection Hstep as <-. unfold sh_prov_inv. simpl.
    pose proof (sh_tstep_clock _ _ _ _ _ _ Ht) as Hclk.
    pose proof (sh_tstep_calls _ _ _ _ _ _ Ht) as Hcalls.
    rewrite Hclk.
    destruct (Forall_lookup_1 _ _ _ _ HF Hi) as (G1 & G2 & G3).
    assert (Step : (forall res, SH.cell m' = Some res ->
                                sh_origin r (SH.calls m') (SH.clock m) res)
                   /\ sh_prov_good r (SH.calls m') (SH.clock m)
                        {| SH.born := SH.born g;
                           SH.slow := SH.enter (SH.clock m) (SH.ip g) p' (SH.slow g);
                           SH.ip := p' |}).
    { unfold sh_prov_good. simpl.
      destruct g as [b sl p]. simpl in *.
      destruct p; sh_tstep_cases Ht; injection Ht as <- <- <-; simpl in *;
        (split; [| repeat split]);
        try discriminate;
        try (intros ? [= <-]);
        try (intros ? ?);
        try (eapply sh_origin_mono; [| | eauto]; simpl; lia);
        try (eapply sh_origin_mono; [| | eapply Hc; congruence]; simpl; lia);
        try (eexists; split; [| reflexivity]; simpl; lia);
        try (simpl; lia).
      all: try (destruct (G2 _ eq_refl) as (k0 & Hk0 & ->);
                exists k0, (SH.clock m); repeat split; simpl; lia).
      all: try (eapply sh_origin_mono; [| | eapply G1; reflexivity]; simpl; lia).
      all: try (match goal with H : Some _ = Some _ |- _ => injection H as <- end;
                eapply sh_origin_mono; [| | eapply G1; reflexivity]; simpl; lia).
      all: exists k; split; [apply G3; reflexivity | reflexivity]. }
    destruct Step as (Hc' & Hg').
    split; [exact Hpos |]. split; [exact Hc' |].
    assert (HF0 : Forall (sh_prov_good r (SH.calls m') (SH.clock m)) pool).
    { eapply Forall_impl; [exact HF |]. intros g0. apply sh_prov_good_mono; lia. }
    pose proof (Forall_insert _ _ i _ HF0 Hg') as HF'.
    destruct eff.
    + exact HF'.
    + apply Forall_app. split; [exact HF' |].
      constructor; [| constructor]. repeat split; discriminate.
    + apply Forall_fmap. eapply Forall_impl; [exact HF' |].
      intros g0. apply sh_prov_good_wake.
Qed.

(** ** The soft/hard strategy: what the owner of the flag knows *)

Lemma sh_owner_good_frame (r : softHard) (m m' : SH.shared) (g : SH.goroutine) :
  SH.clock m' = SH.clock m ->
  (sh_owner g = true -> SH.cell m' = SH.cell m) ->
  sh_owner_good r m g -> sh_owner_good r m' g.
Proof.
  unfold sh_owner_good, sh_owner. intros Hclk Hcell.
  destruct (SH.ip g); simpl in *; auto; rewrite ?Hclk; auto;
    rewrite (Hcell eq_refl); auto.
Qed.

Lemma sh_owner_good_tick (r : softHard) (m : SH.shared) (d : time.Duration)
    (g : SH.goroutine) :
  0 <= d -> sh_owner_good r m g ->
  sh_owner_good r (SH.set_clock m (SH.clock m + d)) g.
Proof.
  unfold sh_owner_good. intros Hd.
  assert (L : forall res pp, isValidAt res (SH.clock m) pp = false ->
                             isValidAt res (SH.clock m + d) pp = false)
    by (intros res pp; apply isValidAt_later_false; lia).
  destruct (SH.ip g); simpl; auto; try lia;
    try (intros [H1 H2]; auto);
    try (intros H res Hres; destruct (H res Hres); auto).
Qed.

Lemma sh_owner_good_wake (r : softHard) (m : SH.shared) (g : SH.goroutine) :
  sh_owner_good r m g -> sh_owner_good r m (SH.wake g).
Proof.
  unfold SH.wake, sh_owner_good. destruct g as [b sl p]. simpl.
  destruct p; simpl; auto.
Qed.

(** Only an owner of the flag stores into the cell. *)
Lemma sh_tstep_cell (r : softHard) (m m' : SH.shared) (p p' : SH.pc) eff :
  SH.tstep r m p = Some (m', p', eff) -> SH.owner p = false ->
  SH.cell m' = SH.cell m.
Proof.
  intros Ht Ho. destruct p; try discriminate Ho; sh_tstep_cases Ht;
    injection Ht as <- <- <-; simpl; congruence.
Qed.

Lemma sh_owner_inv_step (r : softHard) (l : SH.label) (s s' : SH.state_) :
  sh_flag_inv s -> sh_prov_inv r s ->
  Forall (sh_owner_good r (SH.mem s)) (SH.pool s) ->
  SH.step r l s = Some s' ->
  Forall (sh_owner_good r (SH.mem s')) (SH.pool s').
Proof.
  intros (Hle & Hown & _) (Hpos & Hcellp & _) HF Hstep.
  destruct s as [m pool]. simpl in *.
  destruct l as [d | | i]; simpl in Hstep.
  - destruct (Z.leb_spec 0 d); [| discriminate].
    injection Hstep as <-. simpl.
    eapply Forall_impl; [exact HF |]. intros g. apply sh_owner_good_tick. lia.
  - injection Hstep as <-. simpl.
    apply Forall_app. split; [exact HF |].
    constructor; [exact I | constructor].
  - destruct (pool !! i) as [g |] eqn:Hi; [| discriminate].
    destruct (SH.tstep r m (SH.ip g)) as [[[m' p'] eff] |] eqn:Ht; [| discriminate].
    injection Hstep as <-. simpl.
    pose proof (sh_tstep_clock _ _ _ _ _ _ Ht) as Hclk.
    pose proof (Forall_lookup_1 _ _ _ _ HF Hi) as Hg.
    set (g' := {| SH.born := SH.born g;
                  SH.slow := SH.enter (SH.clock m) (SH.ip g) p' (SH.slow g);
                  SH.ip := p' |}).
    assert (Step : sh_owner_good r m' g' /\
                   (eff = SH.Go ->
                    sh_owner_good r m' (SH.fresh (SH.clock m) SH.A90))).
    { subst g'. unfold sh_owner_good in *. simpl.
      assert (Hmom : forall rc, SH.cell m = Some rc -> moment rc <= SH.clock m).
      { intros rc Hrc. destruct (Hcellp rc Hrc) as (k & t & _ & _ & Ht' & ->).
        simpl. exact Ht'. }
      destruct g as [b sl p]. simpl in *.
      destruct p; sh_tstep_cases Ht; injection Ht as <- <- <-; simpl in *;
        split; try discriminate; try exact I; try lia; auto;
        try (intros _);
        try (split; [assumption |]);
        try (eapply isValidAt_later_false; [exact Hg | assumption]);
        try (intros ? [= <-]; auto);
        try (match type of Hg with
             | _ /\ _ =>
                 let H1 := fresh in let H2 := fresh in
                 destruct Hg as [H1 H2]; intros ? Hres; rewrite H1 in Hres;
                 injection Hres as <-; exact H2
             end);
        try (intros ? Hres; rewrite Hg in Hres; injection Hres as <-; auto);
        try (intros ? Hres; congruence). }
    destruct Step as [Hg' Hgo].
    assert (HF' : Forall (sh_owner_good r m') (<[i:=g']> pool)).
    { apply Forall_lookup. intros j x Hj.
      destruct (decide (i = j)) as [<- | Hij].
      - rewrite list_lookup_insert_eq in Hj by (eapply lookup_lt_Some; exact Hi).
        injection Hj as <-. exact Hg'.
      - rewrite list_lookup_insert_ne in Hj by exact Hij.
        pose proof (Forall_lookup_1 _ _ _ _ HF Hj) as Hx.
        apply (sh_owner_good_frame r m m' x Hclk); [| exact Hx].
        intros Hox. eapply sh_tstep_cell; [exact Ht |].
        apply (count_unique sh_owner pool j i x g); auto. lia. }
    destruct eff.
    + exact HF'.
    + apply Forall_app. split; [exact HF' |].
      constructor; [| constructor]. apply Hgo. reflexivity.
    + apply Forall_fmap. eapply Forall_impl; [exact HF' |].
      intros g0. apply sh_owner_good_wake.
Qed.

Lemma sh_reachable_prov (r : softHard) (s : SH.state_) :
  sh_built r -> SH.reachable r s -> sh_prov_inv r s.
Proof.
  intros Hb Hs. induction Hs as [t0 Ht | s l s' Hs IH Hstep].
  - destruct Hb as (ctx & produce & soft & hard & Hr).
    apply SoftHard_ok in Hr as (_ & _ & Hres & _).
    unfold sh_prov_inv, SH.init. simpl. rewrite Hres.
    split; [exact Ht |]. split; [discriminate | constructor].
  - eapply sh_prov_inv_step; eauto.
Qed.

Lemma sh_reachable_owner (r : softHard) (s : SH.state_) :
  sh_built r -> SH.reachable r s ->
  Forall (sh_owner_good r (SH.mem s)) (SH.pool s).
Proof.
  intros Hb Hs. induction Hs as [t0 Ht | s l s' Hs IH Hstep].
  - constructor.
  - eapply sh_owner_inv_step; eauto using sh_reachable_flag, sh_reachable_prov.
Qed.

(** ** The on-demand strategy: what the holder of the write lock knows *)

Lemma od_exclusive_split (l : list OD.pc) :
  count OD.exclusive l = (count od_mid l + count od_exclusive_else l)%nat.
Proof.
  apply count_sum. intros p. unfold od_exclusive_else. destruct p; reflexivity.
Qed.

Lemma od_produced_mono (r : onDemand) (n n' : nat) (out : iface * error) :
  (n <= n')%nat -> od_produced r n out -> od_produced r n' out.
Proof. intros Hn (k & Hk & ->). exists k. split; [lia | reflexivity]. Qed.

Lemma od_tstep_clock (r : onDemand) (m m' : OD.shared) (p p' : OD.pc) :
  OD.tstep r m p = Some (m', p') ->
  OD.clock m' = OD.clock m /\ (OD.calls m <= OD.calls m')%nat.
Proof.
  intros Ht. destruct p; simpl in Ht;
    repeat match type of Ht with
           | context [match ?x with Some _ => _ | None => _ end] => destruct x
           end;
    try discriminate; injection Ht as <- <-; simpl; split; lia.
Qed.

(** Only a holder of the write lock writes to the struct. *)
Lemma od_tstep_cell (r : onDemand) (m m' : OD.shared) (p p' : OD.pc) :
  OD.tstep r m p = Some (m', p') -> OD.exclusive p = false ->
  OD.cell m' = OD.cell m.
Proof.
  intros Ht Hx. destruct p; try discriminate Hx; simpl in Ht;
    repeat match type of Ht with
           | context [match ?x with Some _ => _ | None => _ end] => destruct x
           end;
    try discriminate; injection Ht as <- <-; reflexivity.
Qed.

Lemma od_excl_good_frame (r : onDemand) (m m' : OD.shared) (p : OD.pc) :
  OD.clock m' = OD.clock m -> (OD.calls m <= OD.calls m')%nat ->
  (OD.exclusive p = true -> OD.cell m' = OD.cell m) ->
  od_excl_good r m p -> od_excl_good r m' p.
Proof.
  unfold od_excl_good, OD.get, isValidNow. intros Hclk Hn Hcell.
  destruct p; simpl in *; auto; rewrite ?Hclk;
    try rewrite (Hcell eq_refl); auto;
    try (apply od_produced_mono; exact Hn);
    try lia.
  - intros (k & Hk & H1 & H2). exists k. repeat split; auto. lia.
  - intros H Hex. eapply od_produced_mono; [exact Hn | auto].
  - intros H Hex. eapply od_produced_mono; [exact Hn | auto].
Qed.

Lemma od_whole_inv_step (r : onDemand) (l : OD.label) (s s' : OD.state) :
  od_inv s -> od_whole_inv r s -> OD.step r l s = Some s' -> od_whole_inv r s'.
Proof.
  intros (Hx & _ & _ & Hm & _) (Hw & HF) Hstep.
  destruct s as [m pool]. simpl in *.
  destruct l as [d | | i]; simpl in Hstep.
  - destruct (Z.leb_spec 0 d); [| discriminate].
    injection Hstep as <-. split; simpl; [exact Hw |].
    eapply Forall_impl; [exact HF |].
    intros p. unfold od_excl_good, OD.get, isValidNow. destruct p; simpl; auto.
    apply isValidAt_later_false. lia.
  - injection Hstep as <-. split; simpl.
    + rewrite count_app. simpl. intros H. apply Hw. lia.
    + apply Forall_app. split; [exact HF |]. constructor; [exact I | constructor].
  - destruct (pool !! i) as [p |] eqn:Hi; [| discriminate].
    destruct (OD.tstep r m p) as [[m' p'] |] eqn:Ht; [| discriminate].
    injection Hstep as <-. unfold od_whole_inv. simpl.
    destruct (od_tstep_clock _ _ _ _ _ Ht) as [Hclk Hn].
    pose proof (Forall_lookup_1 _ _ _ _ HF Hi) as Hp.
    pose proof (count_insert od_mid pool i p p' Hi) as Cm.
    pose proof (count_lookup OD.exclusive pool i p Hi) as Cx.
    assert (Hx1 : (count OD.exclusive pool <= 1)%nat)
      by (rewrite Hx; unfold b2n; destruct (sync.writer _); lia).
    rewrite od_exclusive_split in Cx, Hx1.
    pose proof (count_lookup od_mid pool i p Hi) as Cmid.
    pose proof (count_lookup od_exclusive_else pool i p Hi) as Celse.
    assert (Step : (count od_mid (<[i:=p']> pool) = O ->
                    moment (OD.cell m') = 0 \/
                    od_produced r (OD.calls m') (expand (OD.cell m')))
                   /\ od_excl_good r m' p').
    { unfold od_excl_good, od_produced, OD.get, isValidNow in *.
      destruct m as [clk n c lk]. simpl in *.
      destruct p; simpl in Ht;
        repeat match type of Ht with
               | context [match ?x with Some _ => _ | None => _ end] => destruct x
               | context [if ?b then _ else _] => destruct b eqn:?
               end;
        try discriminate; injection Ht as <- <-; simpl in *; unfold b2n in *;
        (split; [intros Hmid | ]); auto;
        try (destruct Hw as [Hw | (k & Hk & Hw)];
             [lia | left; assumption | right; exists k; split; [lia | exact Hw]]);
        try lia;
        try (intros Hne; congruence).
      - specialize (Celse eq_refl).
        destruct Hw as [Hw | Hw]; [lia | | exact Hw].
        match goal with H : OD.get _ _ = true |- _ =>
          unfold OD.get, isValidNow in H; apply isValidAt_true in H;
          simpl in H; lia end.
      - exists k. repeat split. exact Hp.
      - right. destruct Hp as (k & Hk & Hv & He). exists k. split; [exact Hk |].
        unfold expand. simpl. rewrite Hv, He.
        destruct (od_produce r (od_ctx r) k); reflexivity.
      - destruct Hp as (k & Hk & Hv & He). exists k. split; [exact Hk |].
        unfold expand. simpl. rewrite Hv, He.
        destruct (od_produce r (od_ctx r) k); reflexivity. }
    destruct Step as [Hw' Hp'].
    split; [exact Hw' |].
    apply Forall_lookup. intros j x Hj.
    destruct (decide (i = j)) as [<- | Hij].
    + rewrite list_lookup_insert_eq in Hj by (eapply lookup_lt_Some; exact Hi).
      injection Hj as <-. exact Hp'.
    + rewrite list_lookup_insert_ne in Hj by exact Hij.
      pose proof (Forall_lookup_1 _ _ _ _ HF Hj) as Hxg.
      apply (od_excl_good_frame r m m' x Hclk Hn); [| exact Hxg].
      intros Hex. eapply od_tstep_cell; [exact Ht |].
      apply (count_unique OD.exclusive pool j i x p); auto.
      rewrite od_exclusive_split. lia.
Qed.

Lemma od_reachable_whole (r : onDemand) (s : OD.state) :
  od_built r -> OD.reachable r s -> od_whole_inv r s.
Proof.
  intros Hb Hs. induction Hs as [t0 Ht | s l s' Hs IH Hstep].
  - destruct Hb as (ctx & produce & pp & Hr).
    apply OnDemand_ok in Hr as (_ & Hres & _).
    split; simpl; [rewrite Hres; auto | constructor].
  - eapply od_whole_inv_step; eauto using od_reachable_inv.
Qed.

(** ** Counting, concluded *)

Lemma count_le_sum {A} (f g h : A -> bool) (l : list A) :
  (forall x, f x = true -> g x = true \/ h x = true) ->
  (count f l <= count g l + count h l)%nat.
Proof.
  intros H. induction l as [| x l IH]; simpl; [lia |].
  specialize (H x). destruct (f x).
  - destruct (H eq_refl) as [-> | ->]; destruct (g x), (h x); lia.
  - destruct (g x), (h x); lia.
Qed.

Lemma count_none {A} (f g : A -> bool) (l : list A) :
  (forall x, g x = true -> f x = false) ->
  Forall (fun x => g x = true) l -> count f l = O.
Proof.
  intros H. induction 1 as [| x l Hx _ IH]; simpl; [reflexivity |].
  rewrite (H x Hx), IH. reflexivity.
Qed.

Lemma expand_produceResult (out : iface * error) (t : time.Time) :
  expand (produceResult out t) = out /\ moment (produceResult out t) = t.
Proof. destruct out. split; reflexivity. Qed.

(** ** Whole calls of [Get], undisturbed *)

(** Lines 69 to 85: the result is not valid when first tested. *)
Lemma od_run_get_miss (r : onDemand) (m : OD.shared)
    (d1 d2 d3 d4 d5 d6 d7 d8 d9 d10 d11 : time.Duration) :
  let out := od_produce r (od_ctx r) (OD.calls m) in
  OD.lock m = sync.RWMutex_zero -> 0 <= d3 -> 0 <= d4 -> 0 <= d5 ->
  isValidAt (OD.cell m) (OD.clock m + d1 + d2) (od_periods r) = false ->
  OD.solo r [d1; d2; d3; d4; d5; d6; d7; d8; d9; d10; d11] m OD.L69
  = ({| OD.clock := OD.clock m + d1 + d2 + d3 + d4 + d5 + d6 + d7 + d8 + d9
                    + d10 + d11;
        OD.calls := S (OD.calls m);
        OD.cell := {| val := fst out; err := snd out;
                      moment := OD.clock m + d1 + d2 + d3 + d4 + d5 + d6 + d7
                                + d8 + d9 |};
        OD.lock := sync.RWMutex_zero |},
     OD.Done OD.Ret85 out).
Proof.
  intros out Hl H3 H4 H5 Hv. subst out.
  assert (Hv' : isValidAt (OD.cell m) (OD.clock m + d1 + d2 + d3 + d4 + d5)
                  (od_periods r) = false)
    by (eapply isValidAt_later_false; [| exact Hv]; lia).
  destruct m as [clk n c l]. simpl in *. subst l.
  run_od. rewrite Hv. run_od. rewrite Hv'. run_od.
  destruct (od_produce r (od_ctx r) n). reflexivity.
Qed.

(** Lines 101 to 105 on a result within its soft period. *)
Lemma sh_run_get_fresh (r : softHard) (m : SH.shared) (res : result)
    (d1 d2 : time.Duration) :
  SH.cell m = Some res ->
  isValidAt res (SH.clock m + d1 + d2) (sh_soft r) = true ->
  SH.solo r [d1; d2] m SH.L101
  = (SH.set_clock m (SH.clock m + d1 + d2), SH.Done SH.Ret105 res, []).
Proof.
  intros Hc Hv. destruct m as [clk n c st mtx]. simpl in *. subst c.
  run_sh. rewrite Hv. reflexivity.
Qed.

(** Lines 101 to 159 on an empty cell. *)
Lemma sh_run_get_first (r : softHard) (m : SH.shared)
    (d1 d2 d3 d4 d5 d6 d7 d8 d9 d10 d11 d12 : time.Duration) :
  let res := produceResult (sh_produce r (sh_ctx r) (SH.calls m))
               (SH.clock m + d1 + d2 + d3 + d4 + d5 + d6 + d7 + d8) in
  SH.cell m = None -> SH.state m = 0%N -> SH.mu m = false ->
  SH.solo r [d1; d2; d3; d4; d5; d6; d7; d8; d9; d10; d11; d12] m SH.L101
  = ({| SH.clock := SH.clock m + d1 + d2 + d3 + d4 + d5 + d6 + d7 + d8 + d9
                    + d10 + d11 + d12;
        SH.calls := S (SH.calls m);
        SH.cell := Some res;
        SH.state := 0%N;
        SH.mu := false |},
     SH.Done SH.Ret159 res, [SH.Broadcast]).
Proof.
  intros res Hc Hst Hmu. subst res.
  destruct m as [clk n c st mtx]. simpl in *. subst c st mtx. reflexivity.
Qed.

(** Lines 101 to 121 on a result past its soft deadline and within its
    hard one. *)
Lemma sh_run_get_stale (r : softHard) (m : SH.shared) (res : result)
    (d1 d2 d3 d4 d5 : time.Duration) :
  SH.cell m = Some res -> SH.state m = 0%N ->
  isValidAt res (SH.clock m + d1 + d2) (sh_soft r) = false ->
  isValidAt res (SH.clock m + d1 + d2) (sh_hard r) = true ->
  SH.solo r [d1; d2; d3; d4; d5] m SH.L101
  = ({| SH.clock := SH.clock m + d1 + d2 + d3 + d4 + d5;
        SH.calls := SH.calls m;
        SH.cell := Some res;
        SH.state := 1%N;
        SH.mu := SH.mu m |},
     SH.Done SH.Ret121 res, [SH.Go]).
Proof.
  intros Hc Hst Hs Hh.
  destruct m as [clk n c st mtx]. simpl in *. subst c st.
  run_sh. rewrite Hs, Hh. run_sh. rewrite Hs. reflexivity.
Qed.

(** Lines 101 to 159 on a result past its hard deadline. *)
Lemma sh_run_get_expired (r : softHard) (m : SH.shared) (res0 : result)
    (d1 d2 d3 d4 d5 d6 d7 d8 d9 d10 d11 d12 d13 d14 d15 : time.Duration) :
  let res := produceResult (sh_produce r (sh_ctx r) (SH.calls m))
               (SH.clock m + d1 + d2 + d3 + d4 + d5 + d6 + d7 + d8 + d9
                + d10 + d11) in
  SH.cell m = Some res0 -> SH.state m = 0%N -> SH.mu m = false ->
  0 <= d3 -> 0 <= d4 -> 0 <= d5 -> 0 <= d6 -> 0 <= d7 -> 0 <= d8 ->
  isValidAt res0 (SH.clock m + d1 + d2) (sh_soft r) = false ->
  isValidAt res0 (SH.clock m + d1 + d2) (sh_hard r) = false ->
  SH.solo r [d1; d2; d3; d4; d5; d6; d7; d8; d9; d10; d11; d12; d13; d14; d15]
    m SH.L101
  = ({| SH.clock := SH.clock m + d1 + d2 + d3 + d4 + d5 + d6 + d7 + d8 + d9
                    + d10 + d11 + d12 + d13 + d14 + d15;
        SH.calls := S (SH.calls m);
        SH.cell := Some res;
        SH.state := 0%N;
        SH.mu := false |},
     SH.Done SH.Ret159 res, [SH.Broadcast]).
Proof.
  intros res Hc Hst Hmu H3 H4 H5 H6 H7 H8 Hs Hh. subst res.
  assert (Hs5 : isValidAt res0 (SH.clock m + d1 + d2 + d3 + d4 + d5) (sh_soft r)
                = false)
    by (eapply isValidAt_later_false; [| exact Hs]; lia).
  assert (Hs8 : isValidAt res0
                  (SH.clock m + d1 + d2 + d3 + d4 + d5 + d6 + d7 + d8) (sh_soft r)
                = false)
    by (eapply isValidAt_later_false; [| exact Hs]; lia).
  assert (Hh8 : isValidAt res0
                  (SH.clock m + d1 + d2 + d3 + d4 + d5 + d6 + d7 + d8) (sh_hard r)
                = false)
    by (eapply isValidAt_later_false; [| exact Hh]; lia).
  destruct m as [clk n c st mtx]. simpl in *. subst c st mtx.
  run_sh. rewrite Hs, Hh. run_sh. rewrite Hs5. run_sh. rewrite Hs8, Hh8.
  reflexivity.
Qed.

(** ** The example states are reachable *)

Lemma sh_state_parked_reachable : SH.reachable test_softHard sh_state_parked.
Proof.
  apply (sh_reachable_exec _ test_epoch sh_schedule_parked);
    [reflexivity | vm_compute; reflexivity].
Qed.

Lemma sh_state_storing_reachable : SH.reachable test_softHard sh_state_storing.
Proof.
  apply (sh_exec_reachable _ (repeat (SH.Run 2) 3) sh_state_parked);
    [exact sh_state_parked_reachable | vm_compute; reflexivity].
Qed.

Lemma sh_state_reload_reachable : SH.reachable test_softHard sh_state_reload.
Proof.
  apply (sh_reachable_exec _ test_epoch sh_schedule_reload);
    [reflexivity | vm_compute; reflexivity].
Qed.

Lemma sh_state_rest_reachable : SH.reachable test_softHard sh_state_rest.
Proof.
  apply (sh_reachable_exec _ test_epoch sh_schedule_scenario);
    [reflexivity | vm_compute; reflexivity].
Qed.

Lemma od_state_calling_reachable : OD.reachable test_onDemand od_state_calling.
Proof.
  apply (od_reachable_exec _ test_epoch od_schedule_calling);
    [reflexivity | vm_compute; reflexivity].
Qed.

Lemma od_state_stamping_reachable : OD.reachable test_onDemand od_state_stamping.
Proof.
  apply (od_exec_reachable _ (repeat (OD.Run 0) 3) od_state_calling);
    [exact od_state_calling_reachable | vm_compute; reflexivity].
Qed.

Lemma od_state_rest_reachable : OD.reachable test_onDemand od_state_rest.
Proof.
  apply (od_reachable_exec _ test_epoch od_schedule_scenario);
    [reflexivity | vm_compute; reflexivity].
Qed.

(** * Further properties, stated *)

(** X1. [r.lock] is held by at most one goroutine: in every reachable
    state of an instance built by [SoftHard], the goroutines between a
    [Lock] and the matching [Unlock] (a goroutine suspended in [Wait] is
    not among them) are as many as the mutex bit says, none or one. *)
Theorem softHard_mutex_exclusion (r : softHard) (s : SH.state_) :
  sh_built r -> SH.reachable r s ->
  count sh_locked (SH.pool s) = b2n (SH.mu (SH.mem s)) /\
  (count sh_locked (SH.pool s) <= 1)%nat.
Proof.
  intros Hb Hs. destruct (sh_reachable_sync r s Hb Hs) as ((Hl & _) & _).
  split; [exact Hl |]. rewrite Hl. destruct (SH.mu _); simpl; lia.
Qed.

Lemma softHard_mutex_exclusion_witness :
  count sh_locked (SH.pool sh_state_parked) = b2n (SH.mu (SH.mem sh_state_parked)) /\
  (count sh_locked (SH.pool sh_state_parked) <= 1)%nat.
Proof.
  apply (softHard_mutex_exclusion test_softHard sh_state_parked).
  - exact sh_built_test.
  - exact sh_state_parked_reachable.
Defined.

(** X2. The flag [r.state] is always 0 or 1, and it is 1 exactly while one
    goroutine owns the refresh: from a successful compare-and-swap to the
    store of 0, the goroutine of [updateAsync] taking over from the caller
    that started it. *)
Theorem softHard_flag_is_ownership (r : softHard) (s : SH.state_) :
  sh_built r -> SH.reachable r s ->
  (SH.state (SH.mem s) = 0%N /\ count sh_owner (SH.pool s) = 0%nat) \/
  (SH.state (SH.mem s) = 1%N /\ count sh_owner (SH.pool s) = 1%nat).
Proof.
  intros Hb Hs. destruct (sh_reachable_flag r s Hb Hs) as (Hle & Hc & _).
  rewrite Hc.
  assert (H : SH.state (SH.mem s) = 0%N \/ SH.state (SH.mem s) = 1%N) by lia.
  destruct H as [-> | ->]; [left | right]; split; reflexivity.
Qed.

Lemma softHard_flag_is_ownership_witness :
  (SH.state (SH.mem sh_state_parked) = 0%N /\
   count sh_owner (SH.pool sh_state_parked) = 0%nat) \/
  (SH.state (SH.mem sh_state_parked) = 1%N /\
   count sh_owner (SH.pool sh_state_parked) = 1%nat).
Proof.
  apply (softHard_flag_is_ownership test_softHard sh_state_parked).
  - exact sh_built_test.
  - exact sh_state_parked_reachable.
Defined.

(** X3. No wake-up is lost.  A goroutine about to suspend in
    [r.condition.Wait()] sees the flag set; and while a goroutine is
    suspended, either the flag is still set (its owner has yet to store 0
    and broadcast) or some goroutine stands right before a
    [Broadcast]. *)
Theorem softHard_no_lost_wakeup (r : softHard) (s : SH.state_) (i : nat)
    (g : SH.goroutine) :
  sh_built r -> SH.reachable r s -> SH.pool s !! i = Some g ->
  (SH.ip g = SH.L134 -> SH.state (SH.mem s) = 1%N) /\
  (SH.ip g = SH.Parked ->
   SH.state (SH.mem s) = 1%N \/
   exists j gj, SH.pool s !! j = Some gj /\ sh_notifying gj = true).
Proof.
  intros Hb Hs Hi.
  destruct (sh_reachable_sync r s Hb Hs) as ((_ & Hw & Hp) & _).
  split; intros Hip.
  - apply Hw. apply (count_lookup _ _ _ _ Hi). unfold sh_waiting.
    rewrite Hip. reflexivity.
  - destruct Hp as [Hst | Hn].
    + apply (count_lookup _ _ _ _ Hi). unfold sh_parked. rewrite Hip. reflexivity.
    + left. exact Hst.
    + right. apply count_exists. exact Hn.
Qed.

Lemma softHard_no_lost_wakeup_witness :
  SH.state (SH.mem sh_state_parked) = 1%N \/
  exists j gj, SH.pool sh_state_parked !! j = Some gj /\ sh_notifying gj = true.
Proof.
  refine (proj2 (softHard_no_lost_wakeup test_softHard sh_state_parked 3
                   {| SH.born := 1280000000;
                      SH.slow := Some (1280000000, Some first_result);
                      SH.ip := SH.Parked |}
                   sh_built_test sh_state_parked_reachable _) _);
    reflexivity.
Defined.

(** X4. The soft/hard strategy does not deadlock: in every reachable
    state in which some goroutine has not finished, some goroutine can
    execute its next statement. *)
Theorem softHard_no_deadlock (r : softHard) (s : SH.state_) (i : nat)
    (g : SH.goroutine) :
  sh_built r -> SH.reachable r s ->
  SH.pool s !! i = Some g -> sh_finished g = false ->
  exists j s', SH.step r (SH.Run j) s = Some s'.
Proof. apply sh_no_deadlock. Qed.

Lemma softHard_no_deadlock_witness :
  exists j s', SH.step test_softHard (SH.Run j) sh_state_parked = Some s'.
Proof.
  apply (softHard_no_deadlock test_softHard sh_state_parked 3
           {| SH.born := 1280000000;
              SH.slow := Some (1280000000, Some first_result);
              SH.ip := SH.Parked |}).
  - exact sh_built_test.
  - exact sh_state_parked_reachable.
  - reflexivity.
  - reflexivity.
Defined.

(** X5. The on-demand strategy does not deadlock: in every reachable
    state in which some call of [Get] has not returned, some goroutine can
    execute its next statement. *)
Theorem onDemand_no_deadlock (r : onDemand) (s : OD.state) (i : nat) (p : OD.pc) :
  od_built r -> OD.reachable r s ->
  OD.pool s !! i = Some p -> od_returned p = false ->
  exists j s', OD.step r (OD.Run j) s = Some s'.
Proof. apply od_no_deadlock. Qed.

Lemma onDemand_no_deadlock_witness :
  exists j s', OD.step test_onDemand (OD.Run j) od_state_calling = Some s'.
Proof.
  apply (onDemand_no_deadlock test_onDemand od_state_calling 0 OD.L84).
  - exact od_built_test.
  - exact od_state_calling_reachable.
  - reflexivity.
  - reflexivity.
Defined.

(** X6. The soft/hard [Get] returns only what the producer returned: in
    every reachable state, the pair a call has returned, and the pair held
    in the cell, is the outcome of one of the calls of [produce] made so
    far, and its moment is a positive time no later than the clock. *)
Theorem softHard_Get_returns_produced (r : softHard) (s : SH.state_) :
  sh_built r -> SH.reachable r s ->
  (forall i g ex res,
      SH.pool s !! i = Some g -> SH.ip g = SH.Done ex res ->
      exists k : nat,
        (k < SH.calls (SH.mem s))%nat /\
        expand res = sh_produce r (sh_ctx r) k /\
        0 < moment res <= SH.clock (SH.mem s)) /\
  (forall res,
      SH.cell (SH.mem s) = Some res ->
      exists k : nat,
        (k < SH.calls (SH.mem s))%nat /\
        expand res = sh_produce r (sh_ctx r) k /\
        0 < moment res <= SH.clock (SH.mem s)).
Proof.
  intros Hb Hs. destruct (sh_reachable_prov r s Hb Hs) as (_ & Hc & HF).
  assert (O : forall res,
             sh_origin r (SH.calls (SH.mem s)) (SH.clock (SH.mem s)) res ->
             exists k : nat,
               (k < SH.calls (SH.mem s))%nat /\
               expand res = sh_produce r (sh_ctx r) k /\
               0 < moment res <= SH.clock (SH.mem s)).
  { intros res (k & t & Hk & H0 & Ht & ->).
    destruct (expand_produceResult (sh_produce r (sh_ctx r) k) t) as [-> ->].
    exists k. repeat split; assumption. }
  split.
  - intros i g ex res Hi Hip. apply O.
    destruct (Forall_lookup_1 _ _ _ _ HF Hi) as (G1 & _).
    apply G1. rewrite Hip. reflexivity.
  - intros res Hres. apply O. apply Hc. exact Hres.
Qed.

Lemma softHard_Get_returns_produced_witness :
  exists k : nat,
    (k < SH.calls (SH.mem sh_state_rest))%nat /\
    expand first_result = sh_produce test_softHard (sh_ctx test_softHard) k /\
    0 < moment first_result <= SH.clock (SH.mem sh_state_rest).
Proof.
  apply (proj1 (softHard_Get_returns_produced test_softHard sh_state_rest
                  sh_built_test sh_state_rest_reachable)
           1%nat
           {| SH.born := 1080000000; SH.slow := None;
              SH.ip := SH.Done SH.Ret121 first_result |}
           SH.Ret121 first_result);
    reflexivity.
Defined.

(** X7. The on-demand [Get] returns what the producer returned whenever
    it returns under the write lock: in every reachable state, a pair
    returned through line 81 or line 85 is the outcome of one of the calls
    of [produce] made so far. *)
Theorem onDemand_Get_locked_returns_produced (r : onDemand) (s : OD.state)
    (i : nat) (ex : OD.exit) (out : iface * error) :
  od_built r -> OD.reachable r s ->
  OD.pool s !! i = Some (OD.Done ex out) -> ex <> OD.Ret74 ->
  exists k : nat,
    (k < OD.calls (OD.mem s))%nat /\ out = od_produce r (od_ctx r) k.
Proof.
  intros Hb Hs Hi Hex.
  destruct (od_reachable_whole r s Hb Hs) as (_ & HF).
  exact (Forall_lookup_1 _ _ _ _ HF Hi Hex).
Qed.

Lemma onDemand_Get_locked_returns_produced_witness :
  exists k : nat,
    (k < OD.calls (OD.mem od_state_rest))%nat /\
    (None, Some (ErrProducer "0"))
    = od_produce test_onDemand (od_ctx test_onDemand) k.
Proof.
  apply (onDemand_Get_locked_returns_produced test_onDemand od_state_rest
           2 OD.Ret85 (None, Some (ErrProducer "0"))).
  - exact od_built_test.
  - exact od_state_rest_reachable.
  - reflexivity.
  - discriminate.
Defined.

(** X8. The on-demand strategy calls [produce] only for an expired result:
    in every reachable state, when a goroutine is about to call [produce]
    (line 84) the stored result is not valid at the current time. *)
Theorem onDemand_produces_only_when_invalid (r : onDemand) (s : OD.state)
    (i : nat) :
  od_built r -> OD.reachable r s -> OD.pool s !! i = Some OD.L84 ->
  isValidAt (OD.cell (OD.mem s)) (OD.clock (OD.mem s)) (od_periods r) = false.
Proof.
  intros Hb Hs Hi.
  destruct (od_reachable_whole r s Hb Hs) as (_ & HF).
  exact (Forall_lookup_1 _ _ _ _ HF Hi).
Qed.

Lemma onDemand_produces_only_when_invalid_witness :
  isValidAt (OD.cell (OD.mem od_state_calling))
    (OD.clock (OD.mem od_state_calling)) (od_periods test_onDemand) = false.
Proof.
  apply (onDemand_produces_only_when_invalid test_onDemand od_state_calling 0).
  - exact od_built_test.
  - exact od_state_calling_reachable.
  - reflexivity.
Defined.

(** X9. The soft/hard strategy calls [produce] only for a stale result: in
    every reachable state, when a caller is about to call [produce] at line
    153 the cell is empty or its result is past both its soft and its hard
    deadline, and when the goroutine of [updateAsync] is about to call it
    (line 90) the cell is empty or its result is past its soft deadline. *)
Theorem softHard_produces_only_when_stale (r : softHard) (s : SH.state_)
    (i : nat) (g : SH.goroutine) (res : result) :
  sh_built r -> SH.reachable r s -> SH.pool s !! i = Some g ->
  SH.cell (SH.mem s) = Some res ->
  (SH.ip g = SH.L153 ->
   isValidAt res (SH.clock (SH.mem s)) (sh_soft r) = false /\
   isValidAt res (SH.clock (SH.mem s)) (sh_hard r) = false) /\
  (SH.ip g = SH.A90 ->
   isValidAt res (SH.clock (SH.mem s)) (sh_soft r) = false).
Proof.
  intros Hb Hs Hi Hres.
  pose proof (Forall_lookup_1 _ _ _ _ (sh_reachable_owner r s Hb Hs) Hi) as Hg.
  unfold sh_owner_good in Hg.
  split; intros Hip; rewrite Hip in Hg; apply Hg; exact Hres.
Qed.

Lemma softHard_produces_only_when_stale_witness :
  isValidAt first_result (SH.clock (SH.mem sh_state_parked))
    (sh_soft test_softHard) = false.
Proof.
  refine (proj2 (softHard_produces_only_when_stale test_softHard sh_state_parked
                   2 {| SH.born := 1080000000; SH.slow := None; SH.ip := SH.A90 |}
                   first_result sh_built_test sh_state_parked_reachable _ _) _);
    reflexivity.
Defined.

(** X10. The cell never goes back in time and is never emptied: along every
    step from a reachable state, if the cell holds a result then it holds
    one afterwards, with a moment at least as late. *)
Theorem softHard_moment_monotone (r : softHard) (s s' : SH.state_)
    (l : SH.label) (rc : result) :
  sh_built r -> SH.reachable r s -> SH.step r l s = Some s' ->
  SH.cell (SH.mem s) = Some rc ->
  exists rc', SH.cell (SH.mem s') = Some rc' /\ moment rc <= moment rc'.
Proof.
  intros Hb Hs Hstep Hrc.
  pose proof (sh_reachable_owner r s Hb Hs) as HF.
  destruct s as [m pool]. simpl in *.
  destruct l as [d | | i]; simpl in Hstep.
  - destruct (0 <=? d); [| discriminate]. injection Hstep as <-.
    exists rc. split; [exact Hrc | lia].
  - injection Hstep as <-. exists rc. split; [exact Hrc | lia].
  - destruct (pool !! i) as [g |] eqn:Hi; [| discriminate].
    destruct (SH.tstep r m (SH.ip g)) as [[[m' p'] eff] |] eqn:Ht; [| discriminate].
    injection Hstep as <-. simpl.
    pose proof (Forall_lookup_1 _ _ _ _ HF Hi) as Hg.
    unfold sh_owner_good in Hg.
    destruct (SH.ip g); sh_tstep_cases Ht; injection Ht as <- <- <-; simpl;
      try (exists rc; split; [congruence | lia]);
      eexists; (split; [reflexivity | apply Hg; exact Hrc]).
Qed.

Lemma softHard_moment_monotone_witness :
  exists rc',
    SH.cell (SH.mem sh_state_stored) = Some rc' /\
    moment first_result <= moment rc'.
Proof.
  apply (softHard_moment_monotone test_softHard sh_state_storing sh_state_stored
           (SH.Run 2) first_result).
  - exact sh_built_test.
  - exact sh_state_storing_reachable.
  - vm_compute. reflexivity.
  - reflexivity.
Defined.

(** X11. The moment stored by the on-demand strategy never goes back:
    along every step from a reachable state the stored moment does not
    decrease, and it is never later than the clock. *)
Theorem onDemand_moment_monotone (r : onDemand) (s s' : OD.state) (l : OD.label) :
  od_built r -> OD.reachable r s -> OD.step r l s = Some s' ->
  moment (OD.cell (OD.mem s)) <= moment (OD.cell (OD.mem s')) /\
  moment (OD.cell (OD.mem s')) <= OD.clock (OD.mem s').
Proof.
  intros Hb Hs Hstep.
  assert (Hs' : OD.reachable r s') by (eapply OD.reach_step; eassumption).
  destruct (od_reachable_inv r s Hb Hs) as (_ & _ & _ & Hm & _).
  destruct (od_reachable_inv r s' Hb Hs') as (_ & _ & _ & Hm' & _).
  split; [| exact Hm'].
  destruct s as [m pool]. simpl in *.
  destruct l as [d | | i]; simpl in Hstep.
  - destruct (0 <=? d); [| discriminate]. injection Hstep as <-. simpl. lia.
  - injection Hstep as <-. simpl. lia.
  - destruct (pool !! i) as [p |] eqn:Hi; [| discriminate].
    destruct (OD.tstep r m p) as [[m' p'] |] eqn:Ht; [| discriminate].
    injection Hstep as <-. simpl.
    destruct p; simpl in Ht;
      repeat match type of Ht with
             | context [match ?x with Some _ => _ | None => _ end] => destruct x
             end;
      try discriminate; injection Ht as <- <-; simpl; lia.
Qed.

Lemma onDemand_moment_monotone_witness :
  moment (OD.cell (OD.mem od_state_stamping))
  <= moment (OD.cell (OD.mem od_state_stamped)) /\
  moment (OD.cell (OD.mem od_state_stamped)) <= OD.clock (OD.mem od_state_stamped).
Proof.
  apply (onDemand_moment_monotone test_onDemand od_state_stamping od_state_stamped
           (OD.Run 0)).
  - exact od_built_test.
  - exact od_state_stamping_reachable.
  - vm_compute. reflexivity.
Defined.

(** X12. Refresh goroutines do not pile up: in every reachable state at
    most two goroutines started by [updateAsync] have not finished (one
    that owns the flag, and one that has already stored 0 in it and is
    about to broadcast and unlock). *)
Theorem softHard_refreshes_bounded (r : softHard) (s : SH.state_) :
  sh_built r -> SH.reachable r s ->
  (count sh_refreshing (SH.pool s) <= 2)%nat.
Proof.
  intros Hb Hs.
  destruct (sh_reachable_flag r s Hb Hs) as (Hle & Hc & _).
  destruct (sh_reachable_sync r s Hb Hs) as ((Hl & _) & _).
  pose proof (count_le_sum sh_refreshing sh_owner sh_locked (SH.pool s)) as H.
  assert (Hb2 : (b2n (SH.mu (SH.mem s)) <= 1)%nat)
    by (destruct (SH.mu _); simpl; lia).
  etransitivity; [apply H |]; [| lia].
  intros [b sl p]. unfold sh_refreshing, sh_owner, sh_locked. simpl.
  destruct p; try discriminate; auto.
Qed.

Lemma softHard_refreshes_bounded_witness :
  (count sh_refreshing (SH.pool sh_state_parked) <= 2)%nat.
Proof.
  apply (softHard_refreshes_bounded test_softHard sh_state_parked).
  - exact sh_built_test.
  - exact sh_state_parked_reachable.
Defined.

(** X13. The read-write lock of the on-demand strategy is respected: in
    every reachable state a goroutine between [RLock] and [RUnlock] (lines
    70 and 71) coexists with no writer, and a goroutine between [Lock] and
    the deferred [Unlock] (lines 80 to 85, the call of [produce] included)
    is alone there, with no reader. *)
Theorem onDemand_lock_discipline (r : onDemand) (s : OD.state) (i : nat)
    (p : OD.pc) :
  od_built r -> OD.reachable r s -> OD.pool s !! i = Some p ->
  (OD.reading p = true ->
   sync.writer (OD.lock (OD.mem s)) = false /\
   (1 <= sync.readers (OD.lock (OD.mem s)))%nat /\
   count OD.exclusive (OD.pool s) = 0%nat) /\
  (OD.exclusive p = true ->
   sync.writer (OD.lock (OD.mem s)) = true /\
   sync.readers (OD.lock (OD.mem s)) = O /\
   count OD.exclusive (OD.pool s) = 1%nat /\
   count OD.reading (OD.pool s) = 0%nat).
Proof.
  intros Hb Hs Hi.
  destruct (od_lock_discipline r s i p Hb Hs Hi) as [H1 H2].
  destruct (od_reachable_inv r s Hb Hs) as (Hx & Hr & _).
  split; intros Hp.
  - destruct (H1 Hp) as [Hw Hrd]. repeat split; auto.
    rewrite Hx, Hw. reflexivity.
  - destruct (H2 Hp) as (Hw & Hrd & Hc). repeat split; auto.
    rewrite Hr. exact Hrd.
Qed.

Lemma onDemand_lock_discipline_witness :
  sync.writer (OD.lock (OD.mem od_state_calling)) = true /\
  sync.readers (OD.lock (OD.mem od_state_calling)) = O /\
  count OD.exclusive (OD.pool od_state_calling) = 1%nat /\
  count OD.reading (OD.pool od_state_calling) = 0%nat.
Proof.
  refine (proj2 (onDemand_lock_discipline test_onDemand od_state_calling 0 OD.L84
                   od_built_test od_state_calling_reachable _) _);
    reflexivity.
Defined.

(** X14. The unchecked type assertion of line 110 cannot panic: in every
    reachable state, a caller about to execute it finds a result in the
    cell, and its statement can be executed. *)
Theorem softHard_reload_cannot_panic (r : softHard) (s : SH.state_) (i : nat)
    (g : SH.goroutine) (now : time.Time) :
  sh_built r -> SH.reachable r s ->
  SH.pool s !! i = Some g -> SH.ip g = SH.L110 now ->
  (exists res, SH.cell (SH.mem s) = Some res) /\
  SH.tstep r (SH.mem s) (SH.ip g) <> None.
Proof.
  intros Hb Hs Hi Hip.
  destruct (sh_reachable_sync r s Hb Hs) as (_ & Hcell).
  assert (Hl : sh_loaded g = true) by (unfold sh_loaded; rewrite Hip; reflexivity).
  pose proof (count_lookup _ _ _ _ Hi Hl) as H1.
  destruct (SH.cell (SH.mem s)) as [res |] eqn:Hc.
  - split; [eauto |]. rewrite Hip. simpl. rewrite Hc.
    destruct (isValidAt res now (sh_soft r)); discriminate.
  - specialize (Hcell Hc). lia.
Qed.

Lemma softHard_reload_cannot_panic_witness :
  (exists res, SH.cell (SH.mem sh_state_reload) = Some res) /\
  SH.tstep test_softHard (SH.mem sh_state_reload) (SH.L110 1080000000) <> None.
Proof.
  apply (softHard_reload_cannot_panic test_softHard sh_state_reload 1
           {| SH.born := 1080000000; SH.slow := None;
              SH.ip := SH.L110 1080000000 |} 1080000000).
  - exact sh_built_test.
  - exact sh_state_reload_reachable.
  - reflexivity.
  - reflexivity.
Defined.

(** X15. Nothing is left held by the soft/hard strategy: in a reachable
    state in which every goroutine has finished, the mutex is free and the
    flag is 0. *)
Theorem softHard_quiescent (r : softHard) (s : SH.state_) :
  sh_built r -> SH.reachable r s ->
  Forall (fun g => sh_finished g = true) (SH.pool s) ->
  SH.mu (SH.mem s) = false /\ SH.state (SH.mem s) = 0%N.
Proof.
  intros Hb Hs Hall.
  destruct (sh_reachable_flag r s Hb Hs) as (_ & Hc & _).
  destruct (sh_reachable_sync r s Hb Hs) as ((Hl & _) & _).
  rewrite (count_none sh_locked sh_finished) in Hl; [| | exact Hall].
  2: { intros [b sl p]. unfold sh_finished, sh_locked. simpl.
       destruct p; try discriminate; reflexivity. }
  rewrite (count_none sh_owner sh_finished) in Hc; [| | exact Hall].
  2: { intros [b sl p]. unfold sh_finished, sh_owner. simpl.
       destruct p; try discriminate; reflexivity. }
  split; [destruct (SH.mu _); [discriminate | reflexivity] | lia].
Qed.

Lemma softHard_quiescent_witness :
  SH.mu (SH.mem sh_state_rest) = false /\ SH.state (SH.mem sh_state_rest) = 0%N.
Proof.
  apply (softHard_quiescent test_softHard sh_state_rest).
  - exact sh_built_test.
  - exact sh_state_rest_reachable.
  - repeat constructor.
Defined.

(** X16. Nothing is left held by the on-demand strategy: in a reachable
    state in which every call of [Get] has returned, the lock has no reader
    and no writer. *)
Theorem onDemand_quiescent (r : onDemand) (s : OD.state) :
  od_built r -> OD.reachable r s ->
  Forall (fun p => od_returned p = true) (OD.pool s) ->
  OD.lock (OD.mem s) = sync.RWMutex_zero.
Proof.
  intros Hb Hs Hall.
  destruct (od_reachable_inv r s Hb Hs) as (Hx & Hr & _).
  rewrite (count_none OD.exclusive od_returned) in Hx; [| | exact Hall].
  2: { intros p. destruct p; try discriminate; reflexivity. }
  rewrite (count_none OD.reading od_returned) in Hr; [| | exact Hall].
  2: { intros p. destruct p; try discriminate; reflexivity. }
  destruct (OD.lock (OD.mem s)) as [rd wr]. simpl in *.
  subst rd. destruct wr; [discriminate | reflexivity].
Qed.

Lemma onDemand_quiescent_witness :
  OD.lock (OD.mem od_state_rest) = sync.RWMutex_zero.
Proof.
  apply (onDemand_quiescent test_onDemand od_state_rest).
  - exact od_built_test.
  - exact od_state_rest_reachable.
  - repeat constructor.
Defined.

(** X17. The three zones of the soft/hard [Get].  On an instance at rest
    (flag 0, mutex free) that holds a stamped result, a call running
    undisturbed reads the clock once for its decision, at its second
    statement.  The soft deadline (moment plus soft period of the result's
    category) is no later than the hard one.  Before the soft deadline the
    call returns the result and changes nothing.  From the soft deadline
    and before the hard one it returns the same result at once, leaves the
    flag at 1 and starts one refresh goroutine.  From the hard deadline on
    it calls [produce] once, stores and returns the new result, and leaves
    the flag at 0 and the mutex free. *)
Theorem softHard_Get_three_zones (r : softHard) (m : SH.shared) (res0 : result)
    (d1 d2 d3 d4 d5 d6 d7 d8 d9 d10 d11 d12 d13 d14 d15 : time.Duration) :
  let now := SH.clock m + d1 + d2 in
  let soft_deadline := moment res0 + Period (sh_soft r) (err res0) in
  let hard_deadline := moment res0 + Period (sh_hard r) (err res0) in
  let res := produceResult (sh_produce r (sh_ctx r) (SH.calls m))
               (SH.clock m + d1 + d2 + d3 + d4 + d5 + d6 + d7 + d8 + d9
                + d10 + d11) in
  sh_built r ->
  SH.cell m = Some res0 -> SH.state m = 0%N -> SH.mu m = false ->
  moment res0 <> 0 ->
  0 <= d3 -> 0 <= d4 -> 0 <= d5 -> 0 <= d6 -> 0 <= d7 -> 0 <= d8 ->
  soft_deadline <= hard_deadline /\
  (now < soft_deadline ->
   SH.solo r [d1; d2] m SH.L101
   = (SH.set_clock m now, SH.Done SH.Ret105 res0, [])) /\
  (soft_deadline <= now -> now < hard_deadline ->
   SH.solo r [d1; d2; d3; d4; d5] m SH.L101
   = ({| SH.clock := SH.clock m + d1 + d2 + d3 + d4 + d5;
         SH.calls := SH.calls m;
         SH.cell := Some res0;
         SH.state := 1%N;
         SH.mu := false |},
      SH.Done SH.Ret121 res0, [SH.Go])) /\
  (hard_deadline <= now ->
   SH.solo r [d1; d2; d3; d4; d5; d6; d7; d8; d9; d10; d11; d12; d13; d14; d15]
     m SH.L101
   = ({| SH.clock := SH.clock m + d1 + d2 + d3 + d4 + d5 + d6 + d7 + d8 + d9
                     + d10 + d11 + d12 + d13 + d14 + d15;
         SH.calls := S (SH.calls m);
         SH.cell := Some res;
         SH.state := 0%N;
         SH.mu := false |},
      SH.Done SH.Ret159 res, [SH.Broadcast])).
Proof.
  intros now soft_deadline hard_deadline res Hb Hc Hst Hmu Hm0 H3 H4 H5 H6 H7 H8.
  destruct Hb as (ctx & produce & soft & hard & Hr).
  apply SoftHard_ok in Hr as (Hs & Hh & _ & _ & _ & _ & _ & Hd & He).
  rewrite <- Hs, <- Hh in Hd, He.
  pose proof (Period_le (sh_soft r) (sh_hard r) (err res0) Hd He) as Hle.
  split; [subst soft_deadline hard_deadline; lia |].
  split; [| split].
  - intros Hlt. apply sh_run_get_fresh; [exact Hc |].
    apply isValidAt_true. split; [exact Hm0 | exact Hlt].
  - intros Hge Hlt.
    rewrite (sh_run_get_stale r m res0 d1 d2 d3 d4 d5 Hc Hst).
    + rewrite Hmu. reflexivity.
    + apply isValidAt_false. right. exact Hge.
    + apply isValidAt_true. split; [exact Hm0 | exact Hlt].
  - intros Hge.
    apply (sh_run_get_expired r m res0); auto.
    + apply isValidAt_false. right. subst now soft_deadline hard_deadline. lia.
    + apply isValidAt_false. right. exact Hge.
Qed.

Lemma softHard_Get_three_zones_witness :
  SH.solo test_softHard [0; 0; 0; 0; 0] sh_mem_rest SH.L101
  = ({| SH.clock := test_epoch + 80 * time.Millisecond;
        SH.calls := 1;
        SH.cell := Some first_result;
        SH.state := 1%N;
        SH.mu := false |},
     SH.Done SH.Ret121 first_result, [SH.Go]).
Proof.
  refine (proj1 (proj2 (proj2
            (softHard_Get_three_zones test_softHard sh_mem_rest first_result
               0 0 0 0 0 0 0 0 0 0 0 0 0 0 0
               sh_built_test eq_refl eq_refl eq_refl _
               (Z.le_refl 0) (Z.le_refl 0) (Z.le_refl 0)
               (Z.le_refl 0) (Z.le_refl 0) (Z.le_refl 0)))) _ _).
  - discriminate.
  - vm_compute. discriminate.
  - reflexivity.
Defined.

(** X18. Hit or miss of the on-demand [Get].  On an instance at rest (lock
    free) a call running undisturbed decides at its second statement: if
    the stored result is stamped and the time read is before its moment
    plus the period of its category, the call returns the stored pair and
    changes nothing; otherwise (never stamped, or the period has elapsed)
    it calls [produce] once, stores the outcome with the time read after
    the call, returns the outcome and leaves the lock free. *)
Theorem onDemand_Get_hit_or_miss (r : onDemand) (m : OD.shared)
    (d1 d2 d3 d4 d5 d6 d7 d8 d9 d10 d11 : time.Duration) :
  let now := OD.clock m + d1 + d2 in
  let deadline := moment (OD.cell m) + Period (od_periods r) (err (OD.cell m)) in
  let out := od_produce r (od_ctx r) (OD.calls m) in
  OD.lock m = sync.RWMutex_zero -> 0 <= d3 -> 0 <= d4 -> 0 <= d5 ->
  (moment (OD.cell m) <> 0 -> now < deadline ->
   OD.solo r [d1; d2; d3; d4] m OD.L69
   = (OD.set_clock m (OD.clock m + d1 + d2 + d3 + d4),
      OD.Done OD.Ret74 (expand (OD.cell m)))) /\
  (moment (OD.cell m) = 0 \/ deadline <= now ->
   OD.solo r [d1; d2; d3; d4; d5; d6; d7; d8; d9; d10; d11] m OD.L69
   = ({| OD.clock := OD.clock m + d1 + d2 + d3 + d4 + d5 + d6 + d7 + d8 + d9
                     + d10 + d11;
         OD.calls := S (OD.calls m);
         OD.cell := {| val := fst out; err := snd out;
                       moment := OD.clock m + d1 + d2 + d3 + d4 + d5 + d6 + d7
                                 + d8 + d9 |};
         OD.lock := sync.RWMutex_zero |},
      OD.Done OD.Ret85 out)).
Proof.
  intros now deadline out Hl H3 H4 H5. split.
  - intros Hm0 Hlt. apply od_run_fast_hit.
    + rewrite Hl. reflexivity.
    + apply isValidAt_true. split; [exact Hm0 | exact Hlt].
  - intros Hmiss. apply od_run_get_miss; auto.
    apply isValidAt_false. exact Hmiss.
Qed.

Lemma onDemand_Get_hit_or_miss_witness :
  OD.solo test_onDemand [0; 0; 0; 0; 0; 0; 0; 0; 0; 0; 0] od_mem_rest OD.L69
  = ({| OD.clock := test_epoch + 80 * time.Millisecond;
        OD.calls := 2;
        OD.cell := {| val := None; err := Some (ErrProducer "0");
                      moment := test_epoch + 80 * time.Millisecond |};
        OD.lock := sync.RWMutex_zero |},
     OD.Done OD.Ret85 (None, Some (ErrProducer "0"))).
Proof.
  refine (proj2 (onDemand_Get_hit_or_miss test_onDemand od_mem_rest
                   0 0 0 0 0 0 0 0 0 0 0
                   eq_refl (Z.le_refl 0) (Z.le_refl 0) (Z.le_refl 0)) _).
  right. vm_compute. discriminate.
Defined.

(** X19. The constructors do not call [produce]; the first [Get] does.  On
    an instance as [OnDemand] or [SoftHard] builds it, whatever its periods,
    no call of [produce] has been made, and the first call of [Get], running
    undisturbed, makes the first call of [produce], stores its outcome and
    returns it. *)
Theorem first_Get_produces (ro : onDemand) (rs : softHard) (t0 : time.Time)
    (d1 d2 d3 d4 d5 d6 d7 d8 d9 d10 d11 d12 : time.Duration) :
  od_built ro -> sh_built rs -> 0 <= d3 -> 0 <= d4 -> 0 <= d5 ->
  OD.calls (OD.mem (OD.init ro t0)) = O /\
  SH.calls (SH.mem (SH.init rs t0)) = O /\
  snd (OD.solo ro [d1; d2; d3; d4; d5; d6; d7; d8; d9; d10; d11]
         (OD.mem (OD.init ro t0)) OD.L69)
  = OD.Done OD.Ret85 (od_produce ro (od_ctx ro) O) /\
  OD.calls (fst (OD.solo ro [d1; d2; d3; d4; d5; d6; d7; d8; d9; d10; d11]
                   (OD.mem (OD.init ro t0)) OD.L69)) = 1%nat /\
  SH.solo rs [d1; d2; d3; d4; d5; d6; d7; d8; d9; d10; d11; d12]
    (SH.mem (SH.init rs t0)) SH.L101
  = (let res := produceResult (sh_produce rs (sh_ctx rs) O)
                  (t0 + d1 + d2 + d3 + d4 + d5 + d6 + d7 + d8) in
     ({| SH.clock := t0 + d1 + d2 + d3 + d4 + d5 + d6 + d7 + d8 + d9 + d10
                     + d11 + d12;
         SH.calls := 1;
         SH.cell := Some res;
         SH.state := 0%N;
         SH.mu := false |},
      SH.Done SH.Ret159 res, [SH.Broadcast])).
Proof.
  intros (c1 & p1 & pp & Ho) (c2 & p2 & soft & hard & Hs) H3 H4 H5.
  apply OnDemand_ok in Ho as (_ & Hres & Hlock & _).
  apply SoftHard_ok in Hs as (_ & _ & Hcell & Hmu & Hst & _).
  split; [reflexivity |]. split; [reflexivity |].
  rewrite (od_run_get_miss ro (OD.mem (OD.init ro t0))); auto.
  - split; [reflexivity |]. split; [reflexivity |].
    apply (sh_run_get_first rs (SH.mem (SH.init rs t0))); assumption.
  - simpl. rewrite Hres. apply isValidAt_false. left. reflexivity.
Qed.

Lemma first_Get_produces_witness :
  snd (OD.solo test_onDemand [0; 0; 0; 0; 0; 0; 0; 0; 0; 0; 0]
         (OD.mem (OD.init test_onDemand test_epoch)) OD.L69)
  = OD.Done OD.Ret85 (Some 0, None).
Proof.
  exact (proj1 (proj2 (proj2
           (first_Get_produces test_onDemand test_softHard test_epoch
              0 0 0 0 0 0 0 0 0 0 0 0
              od_built_test sh_built_test
              (Z.le_refl 0) (Z.le_refl 0) (Z.le_refl 0))))).
Defined.

(** X20. Every instance a constructor returns has acceptable periods.
    [SoftHard] validates only the soft policy and never calls
    [hard.Validate()]; all the same the hard policy of a returned instance
    passes [Validate], because each hard period is at least its soft
    period.  So in every category the period of an [OnDemand] instance is
    not negative and the soft period of a [SoftHard] instance lies between
    zero and the hard period. *)
Theorem built_periods_valid (ro : onDemand) (rs : softHard) (e : error) :
  od_built ro -> sh_built rs ->
  Validate (od_periods ro) = None /\
  Validate (sh_soft rs) = None /\
  Validate (sh_hard rs) = None /\
  0 <= Period (od_periods ro) e /\
  0 <= Period (sh_soft rs) e <= Period (sh_hard rs) e.
Proof.
  intros (c1 & p1 & pp & Ho) (c2 & p2 & soft & hard & Hs).
  apply OnDemand_ok in Ho as (-> & _ & _ & Hd & He).
  apply SoftHard_ok in Hs as (-> & -> & _ & _ & _ & Hsd & Hse & Hhd & Hhe).
  repeat split; try (apply Validate_None; lia);
    destruct e; simpl; lia.
Qed.

Lemma built_periods_valid_witness :
  Validate (sh_hard test_softHard) = None.
Proof.
  exact (proj1 (proj2 (proj2
           (built_periods_valid test_onDemand test_softHard None
              od_built_test sh_built_test)))).
Defined.

(** X21. [periods.Same] with the constructors.  The policy [Same d] selects
    [d] whatever the error.  With a context and a producer, [OnDemand]
    accepts [Same d] exactly when [d] is not negative, and [SoftHard]
    accepts [Same s] and [Same h] exactly when [0 <= s <= h]. *)
Theorem Same_constructs (c : Context) (f : ProduceFunc) (d s h : time.Duration)
    (e : error) :
  Period (Same d) e = d /\
  (snd (OnDemand (Some c) (Some f) (Same d)) = None <-> 0 <= d) /\
  (snd (SoftHard (Some c) (Some f) (Same s) (Same h)) = None <-> 0 <= s <= h).
Proof.
  split; [destruct e; reflexivity |].
  unfold OnDemand, SoftHard, Validate, Same; simpl. split.
  - destruct (Z.ltb_spec d 0); simpl; split; intros; try discriminate; try lia;
      reflexivity.
  - destruct (Z.ltb_spec s 0); simpl; [split; [discriminate | lia] |].
    destruct (Z.ltb_spec h s); simpl; [split; [discriminate | lia] |].
    split; [lia | reflexivity].
Qed.

(** ** Zero periods *)











(** ** The read of line 74 and the outcome of [produce] *)

Lemma test_produce_not_nil (c : Context) (k : nat) :
  test_produce c k <> (None, None).
Proof. unfold test_produce. destruct (Nat.even k); discriminate. Qed.

Lemma pair_produce_both (c : Context) (k : nat) :
  exists (v : Z) (e : error_value), pair_produce c k = (Some v, Some e).
Proof. eexists _, _. reflexivity. Qed.

Lemma pair_produce_matched (c : Context) (k : nat) :
  pair_produce c k <> (Some 1, Some (ErrProducer "0")).
Proof.
  unfold pair_produce. intros [= Hv He].
  assert (k = 1%nat) as -> by lia.
  vm_compute in He. discriminate.
Qed.

(** C8 fails on the code.  The on-demand [Get] does not always hand the
    error of a failed production to its callers.  In the run
    [od_schedule_lost] of the instance of the tests, caller 1 finds the
    cached (0, nil) valid under the read lock and releases the lock (lines
    70 and 71); the result then expires, caller 2 takes the write lock and
    calls [produce], which fails with (nil, error "0"), and
    [result.produce] assigns the value; caller 1 now executes line 74 and
    returns (nil, nil): the value of the failed production without its
    error, a pair that the producer never returned.  Caller 2 itself
    returns (nil, error "0"). *)
Lemma onDemand_Get_drops_produced_error :
  od_built test_onDemand /\
  test_produce Background 1%nat = (None, Some (ErrProducer "0")) /\
  exists s : OD.state,
    OD.exec test_onDemand od_schedule_lost (OD.init test_onDemand test_epoch)
    = Some s /\
    OD.pool s !! 1%nat = Some (OD.Done OD.Ret74 (None, None)) /\
    OD.pool s !! 2%nat
    = Some (OD.Done OD.Ret85 (None, Some (ErrProducer "0"))) /\
    OD.calls (OD.mem s) = 2%nat /\
    (forall k, test_produce Background k <> (None, None)).
Proof.
  split; [exact od_built_test |]. split; [reflexivity |].
  eexists. split; [vm_compute; reflexivity |].
  split; [reflexivity |]. split; [reflexivity |]. split; [reflexivity |].
  intros k. apply test_produce_not_nil.
Qed.

(** C9 fails on the code.  The on-demand [Get] does not always return the
    pair of a production as it was returned.  The producer [pair_produce]
    returns a value and an error in every call.  In the run
    [od_schedule_mixed], caller 1 finds the cached (0, error "0") valid
    under the read lock and releases the lock (lines 70 and 71); the result
    then expires, caller 2 takes the write lock, calls [produce], which
    returns (1, error "1"), and [result.produce] assigns the value; caller
    1 now executes line 74 and returns (1, error "0"): the value of the
    second production with the error of the first, a pair that the
    producer never returned.  Caller 2 itself returns (1, error "1"). *)
Lemma onDemand_Get_mixes_value_and_error :
  od_built pair_onDemand /\
  (forall k, exists (v : Z) (e : error_value),
      pair_produce Background k = (Some v, Some e)) /\
  exists s : OD.state,
    OD.exec pair_onDemand od_schedule_mixed (OD.init pair_onDemand test_epoch)
    = Some s /\
    OD.pool s !! 1%nat
    = Some (OD.Done OD.Ret74 (Some 1, Some (ErrProducer "0"))) /\
    OD.pool s !! 2%nat
    = Some (OD.Done OD.Ret85 (Some 1, Some (ErrProducer "1"))) /\
    (forall k, pair_produce Background k <> (Some 1, Some (ErrProducer "0"))).
Proof.
  split.
  { exists (Some Background), (Some pair_produce),
      (New defaultPeriod errorPeriod). reflexivity. }
  split; [intros k; apply pair_produce_both |].
  eexists. split; [vm_compute; reflexivity |].
  split; [reflexivity |]. split; [reflexivity |].
  intros k. apply pair_produce_matched.
Qed.
